(** * ZirakBook accounting backend: authentication and authorization core

    A shallow embedding of the code that issues, verifies and rotates
    session tokens, manages password credentials and answers permission
    checks, followed by the properties proved about it.

    Where the embedded functions are in the sources:

    - [utils/tokens.js] (token codec): second part of [src/app.js];
    - [utils/ApiError.js] (error factory): [src/utils/ApiError.js];
    - [utils/hash.js] (password hasher): among the unnamed files;
    - [config/redis.js] (cache helpers): [src/config/redis.js];
    - [services/auth.service.js] (session manager): second part of
      [src/services/permission.service.js];
    - [services/permission.service.js] (assignment, revocation): first part
      of the same file;
    - the permission middleware: second part of
      [src/middleware/errorHandler.js];
    - [changePasswordSchema]: second part of
      [src/validations/user.validation.js].

    Conventions of the embedding.

    - The database reached through [prisma] and the Redis instance are the
      two stores of a [World]; every service function is a function from a
      [World] to an [Outcome] and the [World] left behind, also when it
      throws.  Calls run one after the other.
    - The clock ([Date.now()], also read by [jwt.sign] and [jwt.verify]) is
      the explicit argument [now], in seconds, read once per call.
    - [jsonwebtoken] and [bcryptjs] are libraries outside the repository.
      They are modelled symbolically: a signed token is the pair of the
      signing secret and the signed claims, a password hash is the pair of
      the salt and the hashed plaintext.  Signing is a function of the
      payload, the secret, the options and the clock, as HMAC signing is.
    - A command sent to Redis can be rejected; the helpers of
      [config/redis.js] catch the rejection, and the [World] says which of
      the coming commands are rejected. *)

From Stdlib Require Import ZArith Lia Ascii String.
From stdpp Require Import base decidable option list strings gmap.

Local Open Scope string_scope.
Local Open Scope Z_scope.
Local Open Scope list_scope.

(* ===================================================================== *)
(** ** Outcomes: values and thrown errors *)
(* ===================================================================== *)

(** [HTTP_STATUS] of [config/constants.js], by the names [ApiError.js] uses. *)
Inductive HTTP_STATUS : Set :=
  | BAD_REQUEST
  | UNAUTHORIZED
  | FORBIDDEN
  | NOT_FOUND
  | CONFLICT
  | TOO_MANY_REQUESTS
  | INTERNAL_SERVER_ERROR.

(** [ERROR_CODES] of [config/constants.js], by the names the sources use,
    together with the two codes [ApiError.js] writes as literals. *)
Inductive ERROR_CODES : Set :=
  | VALIDATION_ERROR
  | AUTH_TOKEN_INVALID
  | AUTH_TOKEN_EXPIRED
  | AUTH_INVALID_CREDENTIALS
  | AUTH_INSUFFICIENT_PERMISSIONS
  | AUTH_ACCOUNT_SUSPENDED
  | DB_RECORD_NOT_FOUND
  | DB_DUPLICATE_ENTRY
  | RATE_LIMIT_EXCEEDED
  | INTERNAL_ERROR.

(** The fields of an [ApiError] a caller can observe ([errors] is [null] on
    every path modelled here, [success] and [isOperational] are constants). *)
Record ApiError : Set := mkApiError {
  statusCode : HTTP_STATUS;
  message : string;
  errorCode : ERROR_CODES
}.

Module ApiErr.
Definition badRequest (msg : string) : ApiError :=
  mkApiError BAD_REQUEST msg VALIDATION_ERROR.
Definition unauthorized (msg : string) : ApiError :=
  mkApiError UNAUTHORIZED msg AUTH_TOKEN_INVALID.
Definition forbidden (msg : string) : ApiError :=
  mkApiError FORBIDDEN msg AUTH_INSUFFICIENT_PERMISSIONS.
Definition notFound (msg : string) : ApiError :=
  mkApiError NOT_FOUND msg DB_RECORD_NOT_FOUND.
Definition conflict (msg : string) : ApiError :=
  mkApiError CONFLICT msg DB_DUPLICATE_ENTRY.
Definition internal (msg : string) : ApiError :=
  mkApiError INTERNAL_SERVER_ERROR msg INTERNAL_ERROR.
Definition invalidCredentials : ApiError :=
  mkApiError UNAUTHORIZED "Invalid email or password" AUTH_INVALID_CREDENTIALS.
Definition tokenExpired : ApiError :=
  mkApiError UNAUTHORIZED "Token has expired" AUTH_TOKEN_EXPIRED.
Definition invalidToken : ApiError :=
  mkApiError UNAUTHORIZED "Invalid or malformed token" AUTH_TOKEN_INVALID.
Definition accountSuspended : ApiError :=
  mkApiError FORBIDDEN "Account has been suspended" AUTH_ACCOUNT_SUSPENDED.
End ApiErr.

(** What a JavaScript [throw] carries: an [ApiError], an error of the
    database client (by its Prisma code), or a plain [Error]. *)
Inductive Thrown : Set :=
  | Api (e : ApiError)
  | PrismaError (code : string)
  | JsError (msg : string).

Inductive Outcome (A : Type) : Type :=
  | Returns (a : A)
  | Throws (t : Thrown).
Arguments Returns {A} a.
Arguments Throws {A} t.

(* ===================================================================== *)
(** ** Enumerations of the schema *)
(* ===================================================================== *)

Inductive USER_ROLES : Set :=
  | SUPERADMIN
  | COMPANY_ADMIN
  | ACCOUNTANT
  | MANAGER
  | SALES_USER
  | PURCHASE_USER
  | INVENTORY_USER
  | VIEWER.

Inductive USER_STATUS : Set :=
  | ACTIVE
  | INACTIVE
  | SUSPENDED.

#[global] Instance USER_ROLES_eq_dec : EqDecision USER_ROLES.
Proof. solve_decision. Defined.
#[global] Instance USER_STATUS_eq_dec : EqDecision USER_STATUS.
Proof. solve_decision. Defined.
#[global] Instance HTTP_STATUS_eq_dec : EqDecision HTTP_STATUS.
Proof. solve_decision. Defined.
#[global] Instance ERROR_CODES_eq_dec : EqDecision ERROR_CODES.
Proof. solve_decision. Defined.

(* ===================================================================== *)
(** ** Token codec ([utils/tokens.js]) *)
(* ===================================================================== *)

(** The payload [generateTokens] builds.  The refresh payload carries the
    subject and the email only; the other three fields are then absent. *)
Record Payload : Set := mkPayload {
  p_id : string;
  p_email : string;
  p_role : option USER_ROLES;
  p_companyId : option string;
  p_status : option USER_STATUS
}.

(** The decoded body of a token: the payload and the registered claims that
    [jwt.sign] adds from its options and the clock.  The codec never issues
    a not-before claim, and tokens carrying one are left out. *)
Record Claims : Set := mkClaims {
  payload : Payload;
  iat : Z;
  exp : Z;
  iss : string;
  aud : string
}.

(** A token as a client can present it: any string.  [Signed k c] is the
    string [jwt.sign] produces for the claims [c] under the secret [k];
    [Unsigned s] is any other string, the empty one included. *)
Inductive Token : Set :=
  | Unsigned (s : string)
  | Signed (secret : string) (c : Claims).

#[global] Instance Payload_eq_dec : EqDecision Payload.
Proof. solve_decision. Defined.
#[global] Instance Claims_eq_dec : EqDecision Claims.
Proof. solve_decision. Defined.
#[global] Instance Token_eq_dec : EqDecision Token.
Proof. solve_decision. Defined.

(** JavaScript truthiness of a string: only the empty string is falsy. *)
Definition truthy (s : string) : bool :=
  match s with
  | EmptyString => false
  | String _ _ => true
  end.

Definition token_truthy (t : Token) : bool :=
  match t with
  | Unsigned s => truthy s
  | Signed _ _ => true
  end.

(** The error classes of [jsonwebtoken], by the [name] the handlers read. *)
Record JwtError : Set := mkJwtError {
  name : string;
  jwt_message : string
}.

Definition JsonWebTokenError (msg : string) : JwtError :=
  mkJwtError "JsonWebTokenError" msg.
Definition TokenExpiredError : JwtError :=
  mkJwtError "TokenExpiredError" "jwt expired".

Record SignOptions : Set := mkSignOptions {
  expiresIn : Z;
  issuer : string;
  audience : string
}.

(** [jwt.sign(payload, secret, options)] at clock [now]: refuses an empty
    secret, otherwise stamps [iat], [exp = iat + expiresIn], [iss], [aud]. *)
Definition jwt_sign (now : Z) (p : Payload) (secret : string) (o : SignOptions)
  : option Token :=
  if truthy secret
  then Some (Signed secret (mkClaims p now (now + expiresIn o) (issuer o) (audience o)))
  else None.

(** [jwt.verify(token, secret, {issuer, audience})] at clock [now], in the
    order of the library: decoding, signature, expiry, audience, issuer. *)
Definition jwt_verify (now : Z) (t : Token) (secret : string)
    (iss_opt aud_opt : string) : JwtError + Claims :=
  match t with
  | Unsigned s =>
      inl (JsonWebTokenError (if truthy s then "jwt malformed" else "jwt must be provided"))
  | Signed k c =>
      if negb (truthy secret) then inl (JsonWebTokenError "secret or public key must be provided")
      else if negb (bool_decide (k = secret)) then inl (JsonWebTokenError "invalid signature")
      else if bool_decide (exp c <= now) then inl TokenExpiredError
      else if negb (bool_decide (aud c = aud_opt)) then inl (JsonWebTokenError "jwt audience invalid")
      else if negb (bool_decide (iss c = iss_opt)) then inl (JsonWebTokenError "jwt issuer invalid")
      else inr c
  end.

(** [process.env], as far as [tokens.js] reads it. *)
Record ProcessEnv : Set := mkProcessEnv {
  env_JWT_SECRET : option string;
  env_JWT_REFRESH_SECRET : option string
}.

(** JavaScript [a || b] on values that are a string or [undefined]. *)
Definition js_or (a b : option string) : option string :=
  match a with
  | Some s => if truthy s then Some s else b
  | None => b
  end.

(** The two module-level constants of [tokens.js]. *)
Record TokensModule : Set := mkTokensModule {
  JWT_SECRET : string;
  JWT_REFRESH_SECRET : string
}.

(** Loading [tokens.js]: [JWT_REFRESH_SECRET] falls back to [JWT_SECRET],
    and the module throws when [JWT_SECRET] is not defined. *)
Definition load_tokens_module (env : ProcessEnv) : Outcome TokensModule :=
  match js_or (env_JWT_SECRET env) None with
  | None => Throws (JsError "JWT_SECRET environment variable is not defined")
  | Some s =>
      match js_or (env_JWT_REFRESH_SECRET env) (env_JWT_SECRET env) with
      | Some r => Returns (mkTokensModule s r)
      | None => Throws (JsError "JWT_SECRET environment variable is not defined")
      end
  end.

(** The constants [tokens.js] and the permission middleware import from
    [config/constants.js], which is not among the sources: they are
    parameters of the development.  Durations are in seconds. *)
Record Constants : Type := mkConstants {
  ACCESS_TOKEN_EXPIRY : Z;
  REFRESH_TOKEN_EXPIRY : Z;
  ISSUER : string;
  AUDIENCE : string;
  CACHE_TTL_MEDIUM : Z;
  CACHE_KEYS_USER_PERMISSIONS : string -> string
}.

Record Tokens : Set := mkTokens {
  accessToken : Token;
  refreshToken : Token
}.

Section TokenCodec.
Variable K : Constants.
Variable tm : TokensModule.

Definition generateAccessToken (now : Z) (p : Payload) : Outcome Token :=
  match jwt_sign now p (JWT_SECRET tm)
          (mkSignOptions (ACCESS_TOKEN_EXPIRY K) (ISSUER K) (AUDIENCE K)) with
  | Some t => Returns t
  | None => Throws (Api (ApiErr.internal "Failed to generate access token"))
  end.

Definition generateRefreshToken (now : Z) (p : Payload) : Outcome Token :=
  match jwt_sign now p (JWT_REFRESH_SECRET tm)
          (mkSignOptions (REFRESH_TOKEN_EXPIRY K) (ISSUER K) (AUDIENCE K)) with
  | Some t => Returns t
  | None => Throws (Api (ApiErr.internal "Failed to generate refresh token"))
  end.

(** [generateTokens(user)], on the five fields of [user] it reads. *)
Definition generateTokens (now : Z) (uid uemail : string) (urole : USER_ROLES)
    (ucompany : string) (ustatus : USER_STATUS) : Outcome Tokens :=
  match generateAccessToken now
          (mkPayload uid uemail (Some urole) (Some ucompany) (Some ustatus)) with
  | Throws e => Throws e
  | Returns a =>
      match generateRefreshToken now (mkPayload uid uemail None None None) with
      | Throws e => Throws e
      | Returns r => Returns (mkTokens a r)
      end
  end.

(** The [catch] block shared by the two verifiers: it dispatches on
    [error.name] and falls back to [unauthorized] with the given text. *)
Definition verify_catch (fallback : string) (e : JwtError) : ApiError :=
  if bool_decide (name e = "TokenExpiredError") then ApiErr.tokenExpired
  else if bool_decide (name e = "JsonWebTokenError") then ApiErr.invalidToken
  else ApiErr.unauthorized fallback.

Definition verifyAccessToken (now : Z) (t : Token) : Outcome Claims :=
  match jwt_verify now t (JWT_SECRET tm) (ISSUER K) (AUDIENCE K) with
  | inr c => Returns c
  | inl e => Throws (Api (verify_catch "Token verification failed" e))
  end.

Definition verifyRefreshToken (now : Z) (t : Token) : Outcome Claims :=
  match jwt_verify now t (JWT_REFRESH_SECRET tm) (ISSUER K) (AUDIENCE K) with
  | inr c => Returns c
  | inl e => Throws (Api (verify_catch "Refresh token verification failed" e))
  end.
End TokenCodec.

(* ===================================================================== *)
(** ** Password hasher ([utils/hash.js]) *)
(* ===================================================================== *)

(** What the [password] column holds: a bcrypt string, which fixes the salt
    and the plaintext it was computed from, or any other string. *)
Inductive PasswordHash : Set :=
  | Bcrypt (salt plain : string)
  | NotBcrypt (s : string).

(** [hashPassword]: the salt [bcrypt.genSalt] draws is an argument. *)
Definition hashPassword (salt password : string) : PasswordHash :=
  Bcrypt salt password.

(** [comparePassword]: [bcrypt.compare] answers [false] on a string that is
    not a bcrypt hash. *)
Definition comparePassword (password : string) (h : PasswordHash) : bool :=
  match h with
  | Bcrypt _ plain => bool_decide (plain = password)
  | NotBcrypt _ => false
  end.

(** [String.prototype.toLowerCase] on the ASCII letters. *)
Definition lower_ascii (a : ascii) : ascii :=
  let n := nat_of_ascii a in
  if ((65 <=? n)%nat && (n <=? 90)%nat)%bool then ascii_of_nat (n + 32) else a.

Fixpoint toLowerCase (s : string) : string :=
  match s with
  | EmptyString => EmptyString
  | String a rest => String (lower_ascii a) (toLowerCase rest)
  end.

(* ===================================================================== *)
(** ** The stores: database tables and the Redis client *)
(* ===================================================================== *)

Record Company : Set := mkCompany {
  co_id : string;
  co_name : string;
  isActive : bool
}.

(** A row of [user], with the columns the session manager reads or writes. *)
Record User : Set := mkUser {
  u_id : string;
  u_email : string;
  u_password : PasswordHash;
  u_name : string;
  u_phone : option string;
  u_role : USER_ROLES;
  u_status : USER_STATUS;
  u_companyId : string;
  u_refreshToken : option Token;
  u_lastLoginAt : option Z;
  u_passwordChangedAt : option Z;
  u_createdAt : Z
}.

Record Permission : Set := mkPermission {
  perm_id : string;
  perm_module : string;
  perm_action : string;
  perm_resource : string;
  perm_description : string
}.

Record UserPermission : Set := mkUserPermission {
  up_userId : string;
  up_permissionId : string;
  granted : bool;
  grantedAt : Z;
  grantedBy : string
}.

(** The triple the middleware caches and compares. *)
Record PermTuple : Set := mkPermTuple {
  pt_module : string;
  pt_action : string;
  pt_resource : string
}.

#[global] Instance PermTuple_eq_dec : EqDecision PermTuple.
Proof. solve_decision. Defined.

(** A key of the Redis instance: the JSON text of a permission list (the
    only value these modules cache; [JSON.parse] of [JSON.stringify] gives
    the list back) and the instant at which [SETEX] lets it expire. *)
Record CacheEntry : Set := mkCacheEntry {
  ce_value : list PermTuple;
  ce_expiresAt : Z
}.

(** [redis] is [None] when the client could not be created ([redis = null]).
    [redis_faults] is the fate of the next commands sent to the client,
    first command first: [true] for a command the client rejects (connection
    lost, retries exhausted), [false] for one it carries out; commands
    beyond the list are carried out. *)
Record World : Type := mkWorld {
  users : list User;
  companies : list Company;
  permissions : list Permission;
  userPermissions : list UserPermission;
  redis : option (gmap string CacheEntry);
  redis_faults : list bool
}.

Definition set_users (us : list User) (w : World) : World :=
  mkWorld us (companies w) (permissions w) (userPermissions w) (redis w) (redis_faults w).
Definition set_userPermissions (ups : list UserPermission) (w : World) : World :=
  mkWorld (users w) (companies w) (permissions w) ups (redis w) (redis_faults w).
Definition set_redis (r : option (gmap string CacheEntry)) (w : World) : World :=
  mkWorld (users w) (companies w) (permissions w) (userPermissions w) r (redis_faults w).
Definition set_redis_faults (fs : list bool) (w : World) : World :=
  mkWorld (users w) (companies w) (permissions w) (userPermissions w) (redis w) fs.

(** An asynchronous function of the services: it runs on a [World], leaves
    a [World] and returns or throws.  What it wrote before a [throw] stays. *)
Definition Async (A : Type) : Type := World -> Outcome A * World.

Definition ret {A} (a : A) : Async A := fun w => (Returns a, w).
Definition throw {A} (t : Thrown) : Async A := fun w => (Throws t, w).
Definition bind {A B} (m : Async A) (k : A -> Async B) : Async B :=
  fun w =>
    match m w with
    | (Returns a, w') => k a w'
    | (Throws t, w') => (Throws t, w')
    end.
(** A read of the stores. *)
Definition query {A} (f : World -> A) : Async A := fun w => (Returns (f w), w).
(** An [Outcome] computed without the stores (the token codec). *)
Definition lift {A} (o : Outcome A) : Async A := fun w => (o, w).

Notation "x <- m ;; k" := (bind m (fun x => k))
  (at level 100, m at next level, right associativity).
Notation "m ;;; k" := (bind m (fun _ => k))
  (at level 100, right associativity).

(** *** [prisma] queries *)

Definition user_by_id (i : string) (w : World) : option User :=
  find (fun u => bool_decide (u_id u = i)) (users w).
Definition user_by_email (e : string) (w : World) : option User :=
  find (fun u => bool_decide (u_email u = e)) (users w).
Definition company_by_id (i : string) (w : World) : option Company :=
  find (fun c => bool_decide (co_id c = i)) (companies w).
Definition permission_by_id (i : string) (w : World) : option Permission :=
  find (fun p => bool_decide (perm_id p = i)) (permissions w).

(** [prisma.user.update({ where: { id }, data })]: rejects with the
    record-not-found code when no row has the id. *)
Definition prisma_user_update (i : string) (data : User -> User) : Async unit :=
  fun w =>
    if existsb (fun u => bool_decide (u_id u = i)) (users w)
    then (Returns tt,
          set_users (map (fun u => if bool_decide (u_id u = i) then data u else u) (users w)) w)
    else (Throws (PrismaError "P2025"), w).

(** [prisma.user.create]: the primary key [id] and [email] are unique. *)
Definition prisma_user_create (u : User) : Async User :=
  fun w =>
    if existsb (fun v => bool_decide (u_id v = u_id u) || bool_decide (u_email v = u_email u))
         (users w)
    then (Throws (PrismaError "P2002"), w)
    else (Returns u, set_users (users w ++ [u]) w).

Definition with_refreshToken (t : option Token) (u : User) : User :=
  mkUser (u_id u) (u_email u) (u_password u) (u_name u) (u_phone u) (u_role u)
    (u_status u) (u_companyId u) t (u_lastLoginAt u) (u_passwordChangedAt u)
    (u_createdAt u).
Definition with_login (now : Z) (t : Token) (u : User) : User :=
  mkUser (u_id u) (u_email u) (u_password u) (u_name u) (u_phone u) (u_role u)
    (u_status u) (u_companyId u) (Some t) (Some now) (u_passwordChangedAt u)
    (u_createdAt u).
Definition with_password (now : Z) (h : PasswordHash) (u : User) : User :=
  mkUser (u_id u) (u_email u) h (u_name u) (u_phone u) (u_role u)
    (u_status u) (u_companyId u) None (u_lastLoginAt u) (Some now)
    (u_createdAt u).

(** *** Cache helpers ([config/redis.js]) *)

(** The fate of the next command sent to the client. *)
Definition next_fault (w : World) : bool * World :=
  match redis_faults w with
  | [] => (false, w)
  | rejected :: rest => (rejected, set_redis_faults rest w)
  end.

(** [setCache]: [false] without a client, [false] when [SETEX] is rejected
    (the error is logged and swallowed), [true] once the key is written. *)
Definition setCache (key : string) (value : list PermTuple) (expiryInSeconds now : Z)
  : World -> bool * World :=
  fun w =>
    match redis w with
    | None => (false, w)
    | Some r =>
        let '(rejected, w1) := next_fault w in
        if rejected || bool_decide (expiryInSeconds <= 0) then (false, w1)
        else (true, set_redis (Some (<[key := mkCacheEntry value (now + expiryInSeconds)]> r)) w1)
    end.

(** [getCache]: [null] without a client, on a rejected [GET], and for a key
    that is absent or has expired. *)
Definition getCache (key : string) (now : Z) : World -> option (list PermTuple) * World :=
  fun w =>
    match redis w with
    | None => (None, w)
    | Some r =>
        let '(rejected, w1) := next_fault w in
        if rejected then (None, w1)
        else match r !! key with
             | Some e => if bool_decide (now < ce_expiresAt e) then (Some (ce_value e), w1)
                         else (None, w1)
             | None => (None, w1)
             end
    end.

(** [deleteCache]: [false] without a client and when [DEL] is rejected (the
    error is logged and swallowed), [true] once the key is gone. *)
Definition deleteCache (key : string) : World -> bool * World :=
  fun w =>
    match redis w with
    | None => (false, w)
    | Some r =>
        let '(rejected, w1) := next_fault w in
        if rejected then (false, w1)
        else (true, set_redis (Some (delete key r)) w1)
    end.

(** [await helper(...)] where the caller drops the returned flag. *)
Definition await_ {A} (f : World -> A * World) : Async unit :=
  fun w => (Returns tt, snd (f w)).
(** [await helper(...)] where the caller uses the returned value. *)
Definition await {A} (f : World -> A * World) : Async A :=
  fun w => (Returns (fst (f w)), snd (f w)).

(* ===================================================================== *)
(** ** Objects handed back to the caller *)
(* ===================================================================== *)

#[local] Set Warnings "-register-all".

(** A JavaScript value of a response object.  Strings whose content is
    modelled symbolically (hashes, tokens) and the two enumerations keep
    their own constructors. *)
Inductive JsValue : Set :=
  | JNull
  | JString (s : string)
  | JNumber (z : Z)
  | JBoolean (b : bool)
  | JRole (r : USER_ROLES)
  | JStatus (s : USER_STATUS)
  | JHash (h : PasswordHash)
  | JToken (t : Token)
  | JObject (fields : list (string * JsValue)).

Definition JsObject : Set := list (string * JsValue).

Definition nullable {A} (f : A -> JsValue) (o : option A) : JsValue :=
  match o with
  | Some a => f a
  | None => JNull
  end.

(** The object [prisma] returns for a row of [user]. *)
Definition user_object (u : User) : JsObject :=
  [ ("id", JString (u_id u));
    ("email", JString (u_email u));
    ("password", JHash (u_password u));
    ("name", JString (u_name u));
    ("phone", nullable JString (u_phone u));
    ("role", JRole (u_role u));
    ("status", JStatus (u_status u));
    ("companyId", JString (u_companyId u));
    ("refreshToken", nullable JToken (u_refreshToken u));
    ("lastLoginAt", nullable JNumber (u_lastLoginAt u));
    ("passwordChangedAt", nullable JNumber (u_passwordChangedAt u));
    ("createdAt", JNumber (u_createdAt u)) ].

Definition company_object (c : Company) : JsObject :=
  [ ("id", JString (co_id c));
    ("name", JString (co_name c));
    ("isActive", JBoolean (isActive c)) ].

(** [select: { k: true, ... }]: the listed properties only. *)
Definition select (keys : list string) (o : JsObject) : JsObject :=
  filter (fun kv => fst kv ∈ keys) o.

(** [const { k: _, ...rest } = o]: every property but the listed ones. *)
Definition rest_without (keys : list string) (o : JsObject) : JsObject :=
  filter (fun kv => fst kv ∉ keys) o.

Definition has_property (k : string) (o : JsObject) : Prop :=
  k ∈ (fst <$> o).

(** [include: { company: { select: ... } }]: the row joined with its company. *)
Definition include_company (w : World) (u : User) : User * option Company :=
  (u, company_by_id (u_companyId u) w).

Definition cannot_read_isActive : Thrown :=
  JsError "TypeError: Cannot read properties of null (reading 'isActive')".

Record AuthResult : Set := mkAuthResult {
  res_user : JsObject;
  res_tokens : Tokens
}.

Record RegisterData : Set := mkRegisterData {
  rd_email : string;
  rd_password : string;
  rd_name : string;
  rd_phone : option string;
  rd_role : option USER_ROLES;
  rd_companyId : string
}.

(** The literal key the services delete: [`user:${userId}:permissions`]. *)
Definition permissions_key (userId : string) : string :=
  "user:" +:+ userId +:+ ":permissions".

(* ===================================================================== *)
(** ** Session manager ([services/auth.service.js]) *)
(* ===================================================================== *)

Section AuthService.
Variable K : Constants.
Variable tm : TokensModule.

Definition tokens_for (now : Z) (u : User) : Async Tokens :=
  lift (generateTokens K tm now (u_id u) (u_email u) (u_role u) (u_companyId u) (u_status u)).

(** The [data] of [prisma.user.create] in [register]: lower-cased email,
    [phone || null], [role || VIEWER], status ACTIVE; the database adds the
    id and the creation instant. *)
Definition create_data (userData : RegisterData) (hashedPassword : PasswordHash)
    (now : Z) (newId : string) : User :=
  mkUser newId (toLowerCase (rd_email userData)) hashedPassword
    (rd_name userData)
    (match rd_phone userData with
     | Some p => if truthy p then Some p else None
     | None => None
     end)
    (default VIEWER (rd_role userData))
    ACTIVE (rd_companyId userData) None None None now.

(** [register(userData)]; [newId] is the id the database gives the row and
    [salt] the salt drawn for the hash. *)
Definition register (userData : RegisterData) (now : Z) (salt newId : string)
  : Async AuthResult :=
  existingUser <- query (user_by_email (toLowerCase (rd_email userData))) ;;
  match existingUser with
  | Some _ => throw (Api (ApiErr.conflict "User with this email already exists"))
  | None =>
      company <- query (company_by_id (rd_companyId userData)) ;;
      match company with
      | None => throw (Api (ApiErr.notFound "Company not found"))
      | Some company =>
          if negb (isActive company)
          then throw (Api (ApiErr.badRequest "Cannot register user for inactive company"))
          else
            let hashedPassword := hashPassword salt (rd_password userData) in
            user <- prisma_user_create (create_data userData hashedPassword now newId) ;;
            tokens <- tokens_for now user ;;
            prisma_user_update (u_id user) (with_refreshToken (Some (refreshToken tokens))) ;;;
            ret (mkAuthResult
                   (select ["id"; "email"; "name"; "phone"; "role"; "status";
                            "companyId"; "createdAt"] (user_object user)
                    ++ [("company", JObject (select ["id"; "name"] (company_object company)))])
                   tokens)
      end
  end.

Definition login (email password : string) (now : Z) : Async AuthResult :=
  found <- query (fun w => include_company w <$> user_by_email (toLowerCase email) w) ;;
  match found with
  | None => throw (Api ApiErr.invalidCredentials)
  | Some (user, company) =>
      if negb (comparePassword password (u_password user))
      then throw (Api ApiErr.invalidCredentials)
      else if bool_decide (u_status user = INACTIVE)
      then throw (Api (ApiErr.forbidden "Account is inactive. Please contact administrator."))
      else if bool_decide (u_status user = SUSPENDED)
      then throw (Api ApiErr.accountSuspended)
      else
        match company with
        | None => throw cannot_read_isActive
        | Some company =>
            if negb (isActive company)
            then throw (Api (ApiErr.forbidden "Company account is inactive"))
            else
              tokens <- tokens_for now user ;;
              prisma_user_update (u_id user) (with_login now (refreshToken tokens)) ;;;
              ret (mkAuthResult
                     (rest_without ["password"; "refreshToken"]
                        (user_object user ++ [("company", JObject (company_object company))]))
                     tokens)
        end
  end.

(** [refreshAccessToken(refreshToken)]; the object [{ tokens }] it returns
    is given as its one property. *)
Definition refreshAccessToken (presented : Token) (now : Z) : Async Tokens :=
  if negb (token_truthy presented)
  then throw (Api (ApiErr.badRequest "Refresh token is required"))
  else
    decoded <- lift (verifyRefreshToken K tm now presented) ;;
    found <- query (fun w => include_company w <$> user_by_id (p_id (payload decoded)) w) ;;
    match found with
    | None => throw (Api (ApiErr.unauthorized "User not found"))
    | Some (user, company) =>
        if negb (bool_decide (u_refreshToken user = Some presented))
        then throw (Api (ApiErr.unauthorized "Invalid refresh token"))
        else if negb (bool_decide (u_status user = ACTIVE))
        then throw (Api (ApiErr.forbidden "Account is not active"))
        else
          match company with
          | None => throw cannot_read_isActive
          | Some company =>
              if negb (isActive company)
              then throw (Api (ApiErr.forbidden "Company account is inactive"))
              else
                tokens <- tokens_for now user ;;
                prisma_user_update (u_id user) (with_refreshToken (Some (refreshToken tokens))) ;;;
                ret tokens
          end
    end.

Definition logout (userId : string) : Async unit :=
  prisma_user_update userId (with_refreshToken None) ;;;
  await_ (deleteCache (permissions_key userId)).

Definition changePassword (userId currentPassword newPassword : string)
    (now : Z) (salt : string) : Async unit :=
  user <- query (user_by_id userId) ;;
  match user with
  | None => throw (Api (ApiErr.notFound "User not found"))
  | Some user =>
      if negb (comparePassword currentPassword (u_password user))
      then throw (Api (ApiErr.badRequest "Current password is incorrect"))
      else
        let hashedPassword := hashPassword salt newPassword in
        prisma_user_update userId (with_password now hashedPassword)
  end.

Definition verifyToken (userId : string) : Async bool :=
  found <- query (fun w => include_company w <$> user_by_id userId w) ;;
  match found with
  | None => ret false
  | Some (user, company) =>
      if negb (bool_decide (u_status user = ACTIVE)) then ret false
      else
        match company with
        | None => throw cannot_read_isActive
        | Some company => if negb (isActive company) then ret false else ret true
        end
  end.
End AuthService.

(* ===================================================================== *)
(** ** Permission service ([services/permission.service.js]) *)
(* ===================================================================== *)

Record PermissionRef : Set := mkPermissionRef {
  ref_id : string;
  ref_module : string;
  ref_action : string;
  ref_resource : string
}.

Record AssignResult : Set := mkAssignResult {
  ar_userId : string;
  assignedCount : nat;
  ar_permissions : list PermissionRef
}.

Record RevokeResult : Set := mkRevokeResult {
  rr_userId : string;
  revokedCount : nat
}.

Definition same_assignment (userId permissionId : string) (up : UserPermission) : bool :=
  bool_decide (up_userId up = userId) && bool_decide (up_permissionId up = permissionId).

(** [prisma.userPermission.upsert] on the unique pair [(userId,
    permissionId)]: the row is re-granted if it exists, created otherwise. *)
Definition upsert_userPermission (userId grantedBy_ : string) (now : Z)
    (rows : list UserPermission) (permissionId : string) : list UserPermission :=
  if existsb (same_assignment userId permissionId) rows
  then map (fun up => if same_assignment userId permissionId up
                      then mkUserPermission (up_userId up) (up_permissionId up) true now grantedBy_
                      else up) rows
  else rows ++ [mkUserPermission userId permissionId true now grantedBy_].

Definition assignPermissionsToUser (userId : string) (permissionIds : list string)
    (grantedBy_ : string) (now : Z) : Async AssignResult :=
  user <- query (user_by_id userId) ;;
  match user with
  | None => throw (Api (ApiErr.notFound "User not found"))
  | Some user =>
      if bool_decide (u_role user = SUPERADMIN)
      then throw (Api (ApiErr.badRequest "Cannot assign permissions to superadmin users"))
      else
        found <- query (fun w => filter (fun p => perm_id p ∈ permissionIds) (permissions w)) ;;
        if negb (bool_decide (length found = length permissionIds))
        then throw (Api (ApiErr.badRequest "One or more permission IDs are invalid"))
        else
          (fun w => (Returns tt,
                     set_userPermissions
                       (foldl (upsert_userPermission userId grantedBy_ now)
                              (userPermissions w) permissionIds) w)) ;;;
          await_ (deleteCache (permissions_key userId)) ;;;
          ret (mkAssignResult userId (length permissionIds)
                 (map (fun p => mkPermissionRef (perm_id p) (perm_module p)
                                  (perm_action p) (perm_resource p)) found))
  end.

Definition revoked (userId : string) (permissionIds : list string) (up : UserPermission) : bool :=
  bool_decide (up_userId up = userId) && bool_decide (up_permissionId up ∈ permissionIds).

Definition revokePermissionsFromUser (userId : string) (permissionIds : list string)
  : Async RevokeResult :=
  user <- query (user_by_id userId) ;;
  match user with
  | None => throw (Api (ApiErr.notFound "User not found"))
  | Some _ =>
      count <- (fun w =>
                  (Returns (length (filter (fun up => revoked userId permissionIds up = true)
                                      (userPermissions w))),
                   set_userPermissions
                     (filter (fun up => revoked userId permissionIds up = false)
                        (userPermissions w)) w)) ;;
      await_ (deleteCache (permissions_key userId)) ;;;
      ret (mkRevokeResult userId count)
  end.

(* ===================================================================== *)
(** ** Permission middleware *)
(* ===================================================================== *)

Section PermissionMiddleware.
Variable K : Constants.

Definition tuple_of (p : Permission) : PermTuple :=
  mkPermTuple (perm_module p) (perm_action p) (perm_resource p).

(** [prisma.userPermission.findMany({ where: { userId, granted: true },
    include: { permission: true } })], projected to the triples.  The
    foreign key gives every row its permission. *)
Definition granted_tuples (userId : string) (w : World) : list PermTuple :=
  omap (fun up => tuple_of <$> permission_by_id (up_permissionId up) w)
    (filter (fun up => up_userId up = userId ∧ granted up = true) (userPermissions w)).

(** A cached array is truthy also when it is empty. *)
Definition getUserPermissions (userId : string) (now : Z) : Async (list PermTuple) :=
  let cacheKey := CACHE_KEYS_USER_PERMISSIONS K userId in
  cachedPermissions <- await (getCache cacheKey now) ;;
  match cachedPermissions with
  | Some cached => ret cached
  | None =>
      perms <- query (granted_tuples userId) ;;
      await_ (setCache cacheKey perms (CACHE_TTL_MEDIUM K) now) ;;;
      ret perms
  end.

Definition hasPermission (userPermissions_ : list PermTuple)
    (module_ action resource : string) : bool :=
  existsb (fun perm => bool_decide (pt_module perm = module_)
                       && bool_decide (pt_action perm = action)
                       && bool_decide (pt_resource perm = resource))
    userPermissions_.

Definition checkPermission (userId module_ action resource : string) (now : Z)
  : Async bool :=
  user <- query (user_by_id userId) ;;
  match user with
  | None => ret false
  | Some user =>
      if bool_decide (u_role user = SUPERADMIN) then ret true
      else
        userPermissions_ <- getUserPermissions userId now ;;
        ret (hasPermission userPermissions_ module_ action resource)
  end.
End PermissionMiddleware.

(* ===================================================================== *)
(** ** Request schema of change-password ([validations/auth.validation.js]) *)
(* ===================================================================== *)

Definition is_lower (a : ascii) : bool :=
  let n := nat_of_ascii a in ((97 <=? n)%nat && (n <=? 122)%nat)%bool.
Definition is_upper (a : ascii) : bool :=
  let n := nat_of_ascii a in ((65 <=? n)%nat && (n <=? 90)%nat)%bool.
Definition is_digit (a : ascii) : bool :=
  let n := nat_of_ascii a in ((48 <=? n)%nat && (n <=? 57)%nat)%bool.
Definition is_special (a : ascii) : bool :=
  bool_decide (a ∈ list_ascii_of_string "@$!%*?&#").

(** [passwordPattern]: four look-aheads and a character class of length at
    least eight. *)
Definition passwordPattern (s : string) : bool :=
  let cs := list_ascii_of_string s in
  existsb is_lower cs && existsb is_upper cs && existsb is_digit cs && existsb is_special cs
  && forallb (fun a => is_lower a || is_upper a || is_digit a || is_special a) cs
  && (8 <=? length cs)%nat.

Record ChangePasswordBody : Set := mkChangePasswordBody {
  currentPassword : option string;
  newPassword : option string;
  confirmPassword : option string
}.

(** [changePasswordSchema.validate(body, ...)] reports no error: every rule
    of every key holds.  A Joi string is required to be non-empty. *)
Definition changePasswordSchema (b : ChangePasswordBody) : bool :=
  match currentPassword b, newPassword b, confirmPassword b with
  | Some current, Some new, Some confirm =>
      truthy current
      && negb (bool_decide (new = current))
      && truthy new
      && (8 <=? String.length new)%nat
      && (String.length new <=? 128)%nat
      && passwordPattern new
      && bool_decide (confirm = new)
  | _, _, _ => false
  end.

(* ===================================================================== *)
(** ** A small installation, used to run the functions *)
(* ===================================================================== *)

Module Sample.
(** Expiries of fifteen minutes and seven days, a cache entry of thirty
    minutes, and the middleware key equal to the one the services delete. *)
Definition constants : Constants :=
  mkConstants 900 604800 "zirakbook-api" "zirakbook-client" 1800 permissions_key.

(** Only [JWT_SECRET] is set: the refresh profile shares it. *)
Definition env_shared : ProcessEnv := mkProcessEnv (Some "s3cret") None.
Definition tm_shared : TokensModule := mkTokensModule "s3cret" "s3cret".

(** Both secrets are set, to different values. *)
Definition env_split : ProcessEnv := mkProcessEnv (Some "s3cret") (Some "r3fresh").
Definition tm_split : TokensModule := mkTokensModule "s3cret" "r3fresh".

Definition acme : Company := mkCompany "c1" "Acme" true.
Definition dormant : Company := mkCompany "c2" "Dormant" false.

Definition refresh_claims (uid email : string) (at_ : Z) : Claims :=
  mkClaims (mkPayload uid email None None None) at_ (at_ + 604800)
    "zirakbook-api" "zirakbook-client".

(** The refresh token issued to alice at instant 100. *)
Definition alice_token : Token :=
  Signed "s3cret" (refresh_claims "u1" "alice@acme.test" 100).

Definition alice : User :=
  mkUser "u1" "alice@acme.test" (Bcrypt "salt" "Secret@123") "Alice" None
    VIEWER ACTIVE "c1" (Some alice_token) (Some 100) None 50.

Definition root : User :=
  mkUser "u0" "root@acme.test" (Bcrypt "salt" "Root@1234") "Root" None
    SUPERADMIN ACTIVE "c1" None None None 10.

Definition bob_token : Token :=
  Signed "s3cret" (refresh_claims "u2" "bob@acme.test" 100).

(** A suspended member of an active company. *)
Definition bob : User :=
  mkUser "u2" "bob@acme.test" (Bcrypt "salt" "Bob@12345") "Bob" None
    ACCOUNTANT SUSPENDED "c1" (Some bob_token) None None 20.

Definition carol_token : Token :=
  Signed "s3cret" (refresh_claims "u3" "carol@dormant.test" 100).

(** An active member of an inactive company. *)
Definition carol : User :=
  mkUser "u3" "carol@dormant.test" (Bcrypt "salt" "Carol@123") "Carol" None
    MANAGER ACTIVE "c2" (Some carol_token) None None 30.

Definition read_invoices : Permission :=
  mkPermission "p1" "sales" "read" "invoices" "Read invoices".
Definition create_invoices : Permission :=
  mkPermission "p2" "sales" "create" "invoices" "Create invoices".

Definition world : World :=
  mkWorld [root; alice; bob; carol] [acme; dormant]
    [read_invoices; create_invoices] [] (Some ∅) [].

(** alice holds [read_invoices] and her cache entry says so. *)
Definition world_granted : World :=
  mkWorld [root; alice; bob; carol] [acme; dormant]
    [read_invoices; create_invoices]
    [mkUserPermission "u1" "p1" true 60 "u0"]
    (Some {[ permissions_key "u1" := mkCacheEntry [tuple_of read_invoices] 5000 ]})
    [].

(** The same, with the next Redis command about to be rejected. *)
Definition world_granted_redis_down : World :=
  set_redis_faults [true] world_granted.
End Sample.

(* ===================================================================== *)
(** ** Observations used in the statements *)
(* ===================================================================== *)

(** The identity a signed token names. *)
Definition subject (t : Token) : option string :=
  match t with
  | Signed _ c => Some (p_id (payload c))
  | Unsigned _ => None
  end.

(** The [refreshToken] column of an identity: [None] when there is no such
    identity, [Some None] when the column is [null]. *)
Definition stored_token (userId : string) (w : World) : option (option Token) :=
  u_refreshToken <$> user_by_id userId w.

(** The entry Redis holds under a key, expired or not. *)
Definition cached (key : string) (w : World) : option CacheEntry :=
  redis w ≫= fun r => r !! key.

(** The next command a helper sends to Redis is carried out, or there is no
    client and no command is sent. *)
Definition redis_answers (w : World) : Prop :=
  redis w = None ∨ head (redis_faults w) ≠ Some true.

(** The unique constraint [module_action_resource] of the catalog. *)
Definition triples_unique (w : World) : Prop :=
  ∀ p q, p ∈ permissions w → q ∈ permissions w → tuple_of p = tuple_of q → perm_id p = perm_id q.

(** The gate of login and refresh: the account is not ACTIVE, or its
    company is inactive. *)
Definition gated (w : World) (u : User) : Prop :=
  u_status u = INACTIVE ∨ u_status u = SUSPENDED
  ∨ (u_status u = ACTIVE
     ∧ ∃ c, company_by_id (u_companyId u) w = Some c ∧ isActive c = false).

(** The [user] table after [prisma.user.update] on a row that exists. *)
Definition updated_users (i : string) (data : User -> User) (w : World) : World :=
  set_users (map (fun u => if bool_decide (u_id u = i) then data u else u) (users w)) w.

(** A thrown value is an [ApiError] of the given HTTP status. *)
Definition thrown_with (s : HTTP_STATUS) (t : Thrown) : Prop :=
  ∃ e, t = Api e ∧ statusCode e = s.

Definition fails_with {A} (s : HTTP_STATUS) (o : Outcome A) : Prop :=
  ∃ t, o = Throws t ∧ thrown_with s t.


(** No property of the object holds a password hash or a token. *)
Definition credential_free (o : JsObject) : Prop :=
  ∀ k v, (k, v) ∈ o → (∀ h, v ≠ JHash h) ∧ (∀ t, v ≠ JToken t).

(* ===================================================================== *)
(** ** Statements as the specification words them *)
(* ===================================================================== *)

(** "A token issued as refresh must not validate when presented as access",
    in every configuration. *)
Definition refresh_never_verifies_as_access (K : Constants) (tm : TokensModule) : Prop :=
  ∀ now p t now',
    generateRefreshToken K tm now p = Returns t →
    verifyAccessToken K tm now' t = Throws (Api ApiErr.invalidToken).


(** "Assign G to U, then Check(U, G) is true; revoke G, then Check(U, G) is
    false", at one world, identity and permission. *)
Definition check_follows_mutation (K : Constants) (w : World) (uid : string)
    (g : Permission) : Prop :=
  (∀ by_ now now' res w1,
     assignPermissionsToUser uid [perm_id g] by_ now w = (Returns res, w1) →
     fst (checkPermission K uid (perm_module g) (perm_action g) (perm_resource g) now' w1)
     = Returns true)
  ∧ (∀ now' res w1,
       revokePermissionsFromUser uid [perm_id g] w = (Returns res, w1) →
       fst (checkPermission K uid (perm_module g) (perm_action g) (perm_resource g) now' w1)
       = Returns false).

(** "After Logout the stored refresh token is null and the cached permission
    entry is removed", at one world and identity. *)
Definition logout_clears_token_and_cache (w : World) (uid : string) : Prop :=
  ∀ w1, logout uid w = (Returns tt, w1) →
        stored_token uid w1 = Some None ∧ cached (permissions_key uid) w1 = None.

(** "ChangePassword rejects if new equals current", at the core operation. *)
Definition core_rejects_unchanged_password (w : World) (uid pw : string) : Prop :=
  ∀ now salt, ∃ t, fst (changePassword uid pw pw now salt w) = Throws t.

(* ===================================================================== *)
(** ** Further functions of the sources *)
(* ===================================================================== *)

(** *** [utils/tokens.js]: the authorization header *)

(** [extractTokenFromHeader(authHeader)] on the header as a string:
    [null] unless it starts with ["Bearer "], otherwise [substring(7)]. *)
Definition extractTokenFromHeader (authHeader : option string) : option string :=
  match authHeader with
  | None => None
  | Some h =>
      if negb (truthy h) || negb (String.prefix "Bearer " h) then None
      else Some (String.substring 7 (String.length h - 7) h)
  end.

(** An [Authorization] header: the text ["Bearer "] followed by a signed
    token, or any other text. *)
Inductive AuthorizationHeader : Set :=
  | HeaderText (s : string)
  | BearerSigned (secret : string) (c : Claims).

(** [extractTokenFromHeader] on a header that may carry a signed token. *)
Definition extract_token (h : option AuthorizationHeader) : option Token :=
  match h with
  | None => None
  | Some (HeaderText s) => Unsigned <$> extractTokenFromHeader (Some s)
  | Some (BearerSigned k c) => Some (Signed k c)
  end.

(** *** Authentication middleware ([middleware/auth.js]) *)

(** [req.user] as [authenticate] selects it. *)
Record RequestUser : Set := mkRequestUser {
  ru_id : string;
  ru_email : string;
  ru_name : string;
  ru_role : USER_ROLES;
  ru_status : USER_STATUS;
  ru_companyId : string;
  ru_company : Company
}.

Record Request : Type := mkRequest {
  authorization : option AuthorizationHeader;
  req_user : option RequestUser;
  req_params : gmap string string;
  req_body : gmap string string;
  req_query : gmap string string
}.

Definition with_user (ru : RequestUser) (req : Request) : Request :=
  mkRequest (authorization req) (Some ru) (req_params req) (req_body req) (req_query req).

Definition request_user (u : User) (c : Company) : RequestUser :=
  mkRequestUser (u_id u) (u_email u) (u_name u) (u_role u) (u_status u) (u_companyId u) c.

(** [ApiError.insufficientPermissions(message)]. *)
Definition insufficientPermissions (msg : string) : ApiError :=
  mkApiError FORBIDDEN msg AUTH_INSUFFICIENT_PERMISSIONS.

(** [authenticate]: the request with [req.user] attached, or a throw. *)
Definition authenticate (K : Constants) (tm : TokensModule) (req : Request) (now : Z)
  : Async Request :=
  match extract_token (authorization req) with
  | None => throw (Api (ApiErr.unauthorized "Authentication token is required"))
  | Some token =>
      if negb (token_truthy token)
      then throw (Api (ApiErr.unauthorized "Authentication token is required"))
      else
        decoded <- lift (verifyAccessToken K tm now token) ;;
        found <- query (fun w => include_company w <$> user_by_id (p_id (payload decoded)) w) ;;
        match found with
        | None => throw (Api (ApiErr.unauthorized "User not found or has been deleted"))
        | Some (user, company) =>
            if bool_decide (u_status user = INACTIVE)
            then throw (Api (ApiErr.forbidden "Account is inactive. Please contact administrator."))
            else if bool_decide (u_status user = SUSPENDED)
            then throw (Api ApiErr.accountSuspended)
            else
              match company with
              | None => throw cannot_read_isActive
              | Some company =>
                  if negb (isActive company)
                  then throw (Api (ApiErr.forbidden "Company account is inactive"))
                  else ret (with_user (request_user user company) req)
              end
        end
  end.

(** [optionalAuth]: whatever is thrown inside is caught and dropped. *)
Definition optionalAuth (K : Constants) (tm : TokensModule) (req : Request) (now : Z)
  : Async Request :=
  fun w =>
    match extract_token (authorization req) with
    | None => (Returns req, w)
    | Some token =>
        if negb (token_truthy token) then (Returns req, w)
        else
          match verifyAccessToken K tm now token with
          | Throws _ => (Returns req, w)
          | Returns decoded =>
              match include_company w <$> user_by_id (p_id (payload decoded)) w with
              | Some (user, Some company) =>
                  if bool_decide (u_status user = ACTIVE) && isActive company
                  then (Returns (with_user (request_user user company) req), w)
                  else (Returns req, w)
              | Some (user, None) =>
                  (* [user.company.isActive] is read only for an ACTIVE
                     account; the TypeError is caught *)
                  (Returns req, w)
              | None => (Returns req, w)
              end
          end
    end.

(** The string value of a role. *)
Definition role_name (r : USER_ROLES) : string :=
  match r with
  | SUPERADMIN => "SUPERADMIN"
  | COMPANY_ADMIN => "COMPANY_ADMIN"
  | ACCOUNTANT => "ACCOUNTANT"
  | MANAGER => "MANAGER"
  | SALES_USER => "SALES_USER"
  | PURCHASE_USER => "PURCHASE_USER"
  | INVENTORY_USER => "INVENTORY_USER"
  | VIEWER => "VIEWER"
  end.

(** [Array.prototype.join(', ')]. *)
Fixpoint join_comma (l : list string) : string :=
  match l with
  | [] => ""
  | [x] => x
  | x :: rest => x +:+ ", " +:+ join_comma rest
  end.

(** [requireRole(...roles)], on the flattened list of roles. *)
Definition requireRole (roles : list USER_ROLES) (req : Request) : Outcome unit :=
  match req_user req with
  | None => Throws (Api (ApiErr.unauthorized "Authentication required"))
  | Some user =>
      if negb (bool_decide (ru_role user ∈ roles))
      then Throws (Api (insufficientPermissions
                          ("This action requires one of the following roles: "
                           +:+ join_comma (role_name <$> roles))))
      else Returns tt
  end.

(** [req.params[p] || req.body[p] || req.query[p]]. *)
Definition target_of_request (paramName : string) (req : Request) : option string :=
  js_or (req_params req !! paramName)
    (js_or (req_body req !! paramName) (req_query req !! paramName)).

Definition requireCompanyAccess (paramName : string) (req : Request) : Outcome unit :=
  match req_user req with
  | None => Throws (Api (ApiErr.unauthorized "Authentication required"))
  | Some user =>
      match js_or (target_of_request paramName req) None with
      | Some targetCompanyId =>
          if negb (bool_decide (ru_companyId user = targetCompanyId))
          then Throws (Api (ApiErr.forbidden "Access denied to this company resource"))
          else Returns tt
      | None => Returns tt
      end
  end.

Definition requireOwnershipOrAdmin (paramName : string) (req : Request) : Outcome unit :=
  match req_user req with
  | None => Throws (Api (ApiErr.unauthorized "Authentication required"))
  | Some user =>
      let targetUserId := js_or (req_params req !! paramName) (req_body req !! paramName) in
      let isOwner := bool_decide (Some (ru_id user) = targetUserId) in
      let isAdmin := bool_decide (ru_role user ∈ [SUPERADMIN; COMPANY_ADMIN]) in
      if negb isOwner && negb isAdmin
      then Throws (Api (ApiErr.forbidden "You do not have permission to access this resource"))
      else Returns tt
  end.

(** *** Permission middleware: the three gates *)

Definition requirePermission (K : Constants) (module_ action resource : string)
    (req : Request) (now : Z) : Async unit :=
  match req_user req with
  | None => throw (Api (ApiErr.unauthorized "Authentication required"))
  | Some user =>
      if bool_decide (ru_role user = SUPERADMIN) then ret tt
      else
        userPermissions_ <- getUserPermissions K (ru_id user) now ;;
        if negb (hasPermission userPermissions_ module_ action resource)
        then throw (Api (insufficientPermissions
                           ("You do not have permission to " +:+ action +:+ " " +:+ resource
                            +:+ " in " +:+ module_ +:+ " module")))
        else ret tt
  end.

Definition has_tuple (userPermissions_ : list PermTuple) (perm : PermTuple) : bool :=
  hasPermission userPermissions_ (pt_module perm) (pt_action perm) (pt_resource perm).

Definition requireAnyPermission (K : Constants) (perms : list PermTuple)
    (req : Request) (now : Z) : Async unit :=
  match req_user req with
  | None => throw (Api (ApiErr.unauthorized "Authentication required"))
  | Some user =>
      if bool_decide (ru_role user = SUPERADMIN) then ret tt
      else
        userPermissions_ <- getUserPermissions K (ru_id user) now ;;
        if negb (existsb (has_tuple userPermissions_) perms)
        then throw (Api (insufficientPermissions
                           "You do not have sufficient permissions to perform this action"))
        else ret tt
  end.

Definition requireAllPermissions (K : Constants) (perms : list PermTuple)
    (req : Request) (now : Z) : Async unit :=
  match req_user req with
  | None => throw (Api (ApiErr.unauthorized "Authentication required"))
  | Some user =>
      if bool_decide (ru_role user = SUPERADMIN) then ret tt
      else
        userPermissions_ <- getUserPermissions K (ru_id user) now ;;
        if negb (forallb (has_tuple userPermissions_) perms)
        then throw (Api (insufficientPermissions
                           "You do not have all required permissions to perform this action"))
        else ret tt
  end.

(** *** Permission service: the catalog *)

Definition set_permissions (ps : list Permission) (w : World) : World :=
  mkWorld (users w) (companies w) ps (userPermissions w) (redis w) (redis_faults w).

Record PermissionData : Set := mkPermissionData {
  pd_module : string;
  pd_action : string;
  pd_resource : string;
  pd_description : string
}.

Definition same_triple (m a r : string) (p : Permission) : bool :=
  bool_decide (perm_module p = m) && bool_decide (perm_action p = a)
  && bool_decide (perm_resource p = r).

(** [findUnique({ where: { module_action_resource } })]. *)
Definition permission_by_triple (m a r : string) (w : World) : option Permission :=
  find (same_triple m a r) (permissions w).

(** [prisma.permission.create]: the primary key and the triple are unique. *)
Definition prisma_permission_create (p : Permission) : Async Permission :=
  fun w =>
    if existsb (fun q => bool_decide (perm_id q = perm_id p)
                         || same_triple (perm_module p) (perm_action p) (perm_resource p) q)
         (permissions w)
    then (Throws (PrismaError "P2002"), w)
    else (Returns p, set_permissions (permissions w ++ [p]) w).

(** The entry of a user in the view the service returns. *)
Record PermissionView : Set := mkPermissionView {
  pv_id : string;
  pv_module : string;
  pv_action : string;
  pv_resource : string;
  pv_description : string;
  pv_granted : bool;
  pv_grantedAt : option Z;
  pv_source : string
}.

Record BulkResult : Set := mkBulkResult {
  created : list Permission;
  skipped : list PermissionData;
  total : nat
}.

Module PermissionService.

(** [createPermission(permissionData)]; [newId] is the id the database
    gives the row. *)
Definition createPermission (permissionData : PermissionData) (newId : string)
  : Async Permission :=
  existingPermission <- query (permission_by_triple (pd_module permissionData)
                                 (pd_action permissionData) (pd_resource permissionData)) ;;
  match existingPermission with
  | Some _ => throw (Api (ApiErr.conflict "Permission with this combination already exists"))
  | None =>
      prisma_permission_create
        (mkPermission newId (pd_module permissionData) (pd_action permissionData)
           (pd_resource permissionData) (pd_description permissionData))
  end.

(** [updatePermission(permissionId, { description })]: an [undefined]
    description leaves the column as it is. *)
Definition updatePermission (permissionId : string) (description : option string)
  : Async Permission :=
  existingPermission <- query (permission_by_id permissionId) ;;
  match existingPermission with
  | None => throw (Api (ApiErr.notFound "Permission not found"))
  | Some existing =>
      let updated p :=
        mkPermission (perm_id p) (perm_module p) (perm_action p) (perm_resource p)
          (default (perm_description p) description) in
      fun w =>
        (Returns (updated existing),
         set_permissions
           (map (fun p => if bool_decide (perm_id p = permissionId) then updated p else p)
              (permissions w)) w)
  end.

(** [deletePermission(permissionId)]: refused while a user holds it. *)
Definition deletePermission (permissionId : string) : Async unit :=
  permission <- query (permission_by_id permissionId) ;;
  match permission with
  | None => throw (Api (ApiErr.notFound "Permission not found"))
  | Some _ =>
      users_ <- query (fun w => filter (fun up => up_permissionId up = permissionId)
                                  (userPermissions w)) ;;
      if bool_decide (0 < length users_)%nat
      then throw (Api (ApiErr.badRequest
                         "Cannot delete permission that is assigned to users. Remove assignments first."))
      else
        fun w =>
          (Returns tt,
           set_permissions (filter (fun p => perm_id p ≠ permissionId) (permissions w)) w)
  end.

(** [getUserPermissions(userId)] of the service: the whole catalog for a
    superadmin, the granted assignments otherwise. *)
Definition getUserPermissions (userId : string) : Async (list PermissionView) :=
  user <- query (user_by_id userId) ;;
  match user with
  | None => throw (Api (ApiErr.notFound "User not found"))
  | Some user =>
      if bool_decide (u_role user = SUPERADMIN)
      then
        query (fun w =>
                 map (fun p => mkPermissionView (perm_id p) (perm_module p) (perm_action p)
                                 (perm_resource p) (perm_description p) true None "role")
                   (permissions w))
      else
        query (fun w =>
                 omap (fun up =>
                         (fun p => mkPermissionView (perm_id p) (perm_module p) (perm_action p)
                                     (perm_resource p) (perm_description p) (granted up)
                                     (Some (grantedAt up)) "explicit")
                         <$> permission_by_id (up_permissionId up) w)
                   (filter (fun up => up_userId up = userId ∧ granted up = true)
                      (userPermissions w)))
  end.

(** The loop of [bulkCreatePermissions]: a duplicate is skipped, any other
    error is thrown again.  Each item comes with the id its row would get. *)
Fixpoint bulk_loop (items : list (PermissionData * string))
    (created_ : list Permission) (skipped_ : list PermissionData)
  : Async (list Permission * list PermissionData) :=
  match items with
  | [] => ret (created_, skipped_)
  | (permData, newId) :: rest =>
      fun w =>
        match createPermission permData newId w with
        | (Returns permission, w') => bulk_loop rest (created_ ++ [permission]) skipped_ w'
        | (Throws (Api e), w') =>
            if bool_decide (errorCode e = DB_DUPLICATE_ENTRY)
            then bulk_loop rest created_ (skipped_ ++ [permData]) w'
            else (Throws (Api e), w')
        | (Throws t, w') => (Throws t, w')
        end
  end.

Definition bulkCreatePermissions (permissionsData : list (PermissionData * string))
  : Async BulkResult :=
  r <- bulk_loop permissionsData [] [] ;;
  ret (mkBulkResult (fst r) (snd r) (length permissionsData)).

End PermissionService.

(** *** Invariants of the tables *)

(** The primary key and the unique triple of the catalog. *)
Definition catalog_wf (w : World) : Prop :=
  NoDup (perm_id <$> permissions w) ∧ NoDup (tuple_of <$> permissions w).

(** The foreign key of [userPermission] into the catalog. *)
Definition assignments_refer_to_catalog (w : World) : Prop :=
  ∀ up, up ∈ userPermissions w → ∃ p, p ∈ permissions w ∧ perm_id p = up_permissionId up.

(** The columns of an identity no session operation writes. *)
Definition identity_of (u : User) : string * string * USER_ROLES * USER_STATUS * string :=
  (u_id u, u_email u, u_role u, u_status u, u_companyId u).

(** *** [config/redis.js]: the retry delay *)

(** [retryStrategy(times)]: [Math.min(times * 50, 2000)] milliseconds. *)
Definition retryStrategy (times : Z) : Z := Z.min (times * 50) 2000.

(** Redis carries out every command it is sent from now on. *)
Definition redis_healthy (w : World) : Prop :=
  Forall (fun rejected => rejected = false) (redis_faults w).

(** The triple of an entry of the service's view. *)
Definition view_tuple (v : PermissionView) : PermTuple :=
  mkPermTuple (pv_module v) (pv_action v) (pv_resource v).

(** *** [utils/ApiResponse.js]: pagination *)






(** *** Error handler ([middleware/errorHandler.js]) *)

(** An error code of a response: a member of [ERROR_CODES], the member
    [DB_FOREIGN_KEY_CONSTRAINT], or a literal of the handler. *)
Inductive ResponseCode : Set :=
  | Code (c : ERROR_CODES)
  | DB_FOREIGN_KEY_CONSTRAINT
  | CodeLiteral (s : string).

(** What reaches the handler: an [ApiError] with its [errors], one of the
    two Prisma error classes, or any other error by [name], [message] and
    [details]. *)
Inductive RaisedError : Set :=
  | RaisedApiError (e : ApiError) (errors : option (list string))
  | PrismaClientKnownRequestError (code : string) (target : option (list string))
  | PrismaClientValidationError
  | OtherError (name_ message_ : string) (details : option (list string)).

(** The [ApiError] the handler works with. *)
Record HandledError : Set := mkHandledError {
  he_statusCode : HTTP_STATUS;
  he_message : string;
  he_errorCode : ResponseCode;
  he_errors : option (list string)
}.

Definition of_ApiError (e : ApiError) (errors : option (list string)) : HandledError :=
  mkHandledError (statusCode e) (message e) (Code (errorCode e)) errors.

Definition handlePrismaError (e : RaisedError) : HandledError :=
  match e with
  | PrismaClientKnownRequestError code target =>
      if bool_decide (code = "P2002")
      then
        let field := default "field" (js_or (target ≫= head) (Some "field")) in
        of_ApiError (ApiErr.conflict ("A record with this " +:+ field +:+ " already exists"))
          None
      else if bool_decide (code = "P2025")
      then of_ApiError (ApiErr.notFound "The requested record was not found") None
      else if bool_decide (code = "P2003")
      then mkHandledError BAD_REQUEST "Invalid reference to related record"
             DB_FOREIGN_KEY_CONSTRAINT None
      else if bool_decide (code = "P2018")
      then of_ApiError (ApiErr.notFound "The record to delete does not exist") None
      else if bool_decide (code = "P1001")
      then mkHandledError INTERNAL_SERVER_ERROR "Database connection failed"
             (CodeLiteral "DB_CONNECTION_ERROR") None
      else mkHandledError INTERNAL_SERVER_ERROR "Database operation failed"
             (CodeLiteral "DB_ERROR") None
  | PrismaClientValidationError =>
      of_ApiError (ApiErr.badRequest "Invalid data provided") None
  | _ =>
      mkHandledError INTERNAL_SERVER_ERROR "Database operation failed"
        (CodeLiteral "DB_ERROR") None
  end.

Definition handleJWTError (name_ : string) : HandledError :=
  if bool_decide (name_ = "TokenExpiredError") then of_ApiError ApiErr.tokenExpired None
  else if bool_decide (name_ = "JsonWebTokenError") then of_ApiError ApiErr.invalidToken None
  else of_ApiError (ApiErr.unauthorized "Token verification failed") None.

(** [convertToApiError(error)] under [process.env.NODE_ENV]. *)
Definition convertToApiError (NODE_ENV : option string) (e : RaisedError) : HandledError :=
  match e with
  | RaisedApiError a errors => of_ApiError a errors
  | PrismaClientKnownRequestError _ _ | PrismaClientValidationError => handlePrismaError e
  | OtherError name_ message_ details =>
      if bool_decide (name_ = "TokenExpiredError") || bool_decide (name_ = "JsonWebTokenError")
      then handleJWTError name_
      else if bool_decide (name_ = "ValidationError")
      then of_ApiError (ApiErr.badRequest message_) details
      else of_ApiError
             (ApiErr.internal (if bool_decide (NODE_ENV = Some "production")
                               then "Internal Server Error" else message_))
             None
  end.

(** The JSON body the handler sends; [stack] says whether the stack trace
    is included. *)
Record ErrorResponse : Set := mkErrorResponse {
  er_success : bool;
  er_statusCode : HTTP_STATUS;
  er_errorCode : ResponseCode;
  er_message : string;
  er_errors : option (list string);
  er_stack : bool
}.

(** A non-empty array is truthy, and so is an empty one. *)
Definition errorHandler (NODE_ENV : option string) (err : RaisedError) : ErrorResponse :=
  let error := convertToApiError NODE_ENV err in
  mkErrorResponse false (he_statusCode error) (he_errorCode error) (he_message error)
    (he_errors error) (bool_decide (NODE_ENV = Some "development")).

(** What a service throws, as the handler receives it; [target] is the
    [meta.target] Prisma attaches to its error. *)
Definition raised (target : option (list string)) (t : Thrown) : RaisedError :=
  match t with
  | Api e => RaisedApiError e None
  | PrismaError code => PrismaClientKnownRequestError code target
  | JsError msg => OtherError "Error" msg None
  end.

(* ===================================================================== *)
(** * Properties *)
(* ===================================================================== *)

(** ** Token codec *)

Lemma verify_catch_expired fb : verify_catch fb TokenExpiredError = ApiErr.tokenExpired.
Proof. reflexivity. Qed.

Lemma verify_catch_invalid fb msg :
  verify_catch fb (JsonWebTokenError msg) = ApiErr.invalidToken.
Proof. reflexivity. Qed.

(** The library's verdict on a token, read off the token itself. *)
Lemma jwt_verify_cases now t secret i a :
  (∃ c, jwt_verify now t secret i a = inr c ∧ t = Signed secret c
        ∧ truthy secret = true ∧ now < exp c ∧ iss c = i ∧ aud c = a)
  ∨ (jwt_verify now t secret i a = inl TokenExpiredError
     ∧ ∃ c, t = Signed secret c ∧ truthy secret = true ∧ exp c <= now)
  ∨ (∃ msg, jwt_verify now t secret i a = inl (JsonWebTokenError msg)
      ∧ ((∃ s, t = Unsigned s)
         ∨ (∃ k c, t = Signed k c ∧ (truthy secret = false ∨ k ≠ secret))
         ∨ (∃ c, t = Signed secret c ∧ now < exp c ∧ (iss c ≠ i ∨ aud c ≠ a)))).
Proof.
  destruct t as [s | k c]; simpl.
  - right; right. eexists; split; [reflexivity | left; eauto].
  - destruct (truthy secret) eqn:Hs; simpl.
    2:{ right; right. eexists; split; [reflexivity | right; left; eauto]. }
    case_bool_decide as Hk; simpl.
    2:{ right; right. eexists; split; [reflexivity | right; left; eauto]. }
    subst k. case_bool_decide as He; simpl.
    { right; left. split; [reflexivity | eauto]. }
    case_bool_decide as Ha; simpl.
    2:{ right; right. eexists; split; [reflexivity |].
        right; right. exists c. repeat split; [lia | auto]. }
    case_bool_decide as Hi; simpl.
    2:{ right; right. eexists; split; [reflexivity |].
        right; right. exists c. repeat split; [lia | auto]. }
    left. exists c. repeat split; auto. lia.
Qed.



Lemma load_tokens_module_secrets env tm :
  load_tokens_module env = Returns tm →
  truthy (JWT_SECRET tm) = true ∧ truthy (JWT_REFRESH_SECRET tm) = true
  ∧ (js_or (env_JWT_REFRESH_SECRET env) None = None → JWT_REFRESH_SECRET tm = JWT_SECRET tm).
Proof.
  unfold load_tokens_module, js_or.
  destruct env as [[s |] r]; simpl; [| discriminate].
  destruct (truthy s) eqn:Hs; [| discriminate].
  destruct r as [r |]; simpl.
  - destruct (truthy r) eqn:Hr; intros [= <-]; simpl; auto.
    repeat split; auto. discriminate.
  - intros [= <-]; simpl; auto.
Qed.

Lemma generateRefreshToken_returns K tm now p t :
  generateRefreshToken K tm now p = Returns t →
  truthy (JWT_REFRESH_SECRET tm) = true
  ∧ t = Signed (JWT_REFRESH_SECRET tm)
          (mkClaims p now (now + REFRESH_TOKEN_EXPIRY K) (ISSUER K) (AUDIENCE K)).
Proof.
  unfold generateRefreshToken, jwt_sign; simpl.
  destruct (truthy (JWT_REFRESH_SECRET tm)); [| discriminate].
  intros [= <-]. auto.
Qed.

Lemma generateAccessToken_returns K tm now p t :
  generateAccessToken K tm now p = Returns t →
  truthy (JWT_SECRET tm) = true
  ∧ t = Signed (JWT_SECRET tm)
          (mkClaims p now (now + ACCESS_TOKEN_EXPIRY K) (ISSUER K) (AUDIENCE K)).
Proof.
  unfold generateAccessToken, jwt_sign; simpl.
  destruct (truthy (JWT_SECRET tm)); [| discriminate].
  intros [= <-]. auto.
Qed.

(** A token signed with the verifier's secret for its issuer and audience
    is accepted until it expires. *)
Lemma jwt_verify_accepts now secret c i a :
  truthy secret = true → now < exp c → iss c = i → aud c = a →
  jwt_verify now (Signed secret c) secret i a = inr c.
Proof.
  intros Hs He Hi Ha. simpl. rewrite Hs. simpl.
  rewrite bool_decide_eq_true_2 by reflexivity. simpl.
  rewrite bool_decide_eq_false_2 by lia.
  rewrite (bool_decide_eq_true_2 _ Ha), (bool_decide_eq_true_2 _ Hi). reflexivity.
Qed.

(** C3, as the specification words it, fails when the refresh profile
    shares the access secret: the refresh token issued at instant 100 is
    accepted by [verifyAccessToken] at instant 101. *)
Lemma shared_secret_refresh_token_verifies_as_access :
  ¬ refresh_never_verifies_as_access Sample.constants Sample.tm_shared.
Proof.
  intros H.
  specialize (H 100 (mkPayload "u1" "alice@acme.test" None None None)
                Sample.alice_token 101 eq_refl).
  vm_compute in H. discriminate H.
Qed.

(** C3, amended. A token issued by [generateRefreshToken] is rejected by
    [verifyAccessToken] with [invalidToken] whenever the refresh secret
    differs from the access secret; when the two profiles share the secret
    (no separate [JWT_REFRESH_SECRET]) the access verifier returns its
    claims until the token expires. *)
Theorem refresh_token_under_access_verifier
    (K : Constants) (tm : TokensModule) (now now' : Z) (p : Payload) (t : Token) :
  generateRefreshToken K tm now p = Returns t →
  (JWT_REFRESH_SECRET tm ≠ JWT_SECRET tm →
   verifyAccessToken K tm now' t = Throws (Api ApiErr.invalidToken))
  ∧ (JWT_REFRESH_SECRET tm = JWT_SECRET tm → now' < now + REFRESH_TOKEN_EXPIRY K →
     ∃ c, verifyAccessToken K tm now' t = Returns c ∧ payload c = p).
Proof.
  intros Hgen. apply generateRefreshToken_returns in Hgen as [Hs ->]. split.
  - intros Hne. unfold verifyAccessToken. simpl.
    destruct (truthy (JWT_SECRET tm)); simpl; [| reflexivity].
    rewrite bool_decide_eq_false_2 by exact Hne. reflexivity.
  - intros Heq Hlt. unfold verifyAccessToken. rewrite Heq in *.
    rewrite jwt_verify_accepts by (simpl; auto). eauto.
Qed.

Lemma refresh_token_under_access_verifier_witness :
  generateRefreshToken Sample.constants Sample.tm_split 100
    (mkPayload "u1" "alice@acme.test" None None None)
  = Returns (Signed "r3fresh" (Sample.refresh_claims "u1" "alice@acme.test" 100))
  ∧ verifyAccessToken Sample.constants Sample.tm_split 200
      (Signed "r3fresh" (Sample.refresh_claims "u1" "alice@acme.test" 100))
    = Throws (Api ApiErr.invalidToken).
Proof.
  split; [reflexivity |].
  apply (refresh_token_under_access_verifier Sample.constants Sample.tm_split 100 200
           (mkPayload "u1" "alice@acme.test" None None None)); [reflexivity |].
  vm_compute. discriminate.
Defined.

(** ** Session manager *)

Ltac run := unfold bind, query, lift, throw, ret, await, await_; simpl.



(** *** The [user] table under [prisma.user.update] *)

Lemma find_some_existsb {A} (P : A -> bool) (l : list A) (x : A) :
  find P l = Some x → existsb P l = true.
Proof.
  intros H. apply find_some in H as [Hin HP].
  apply existsb_exists. eauto.
Qed.

Lemma prisma_user_update_found i data w u :
  user_by_id i w = Some u →
  prisma_user_update i data w = (Returns tt, updated_users i data w).
Proof.
  intros H. unfold prisma_user_update.
  rewrite (find_some_existsb _ _ _ H). reflexivity.
Qed.

Lemma prisma_user_update_missing i data w :
  user_by_id i w = None →
  prisma_user_update i data w = (Throws (PrismaError "P2025"), w).
Proof.
  intros H. unfold prisma_user_update.
  destruct (existsb _ (users w)) eqn:He; [| reflexivity].
  apply existsb_exists in He as (x & Hin & Hx).
  unfold user_by_id in H. eapply find_none in H; [| exact Hin]. congruence.
Qed.

Lemma user_by_id_updated i data w j :
  (∀ u, u_id (data u) = u_id u) →
  user_by_id j (updated_users i data w)
  = (fun u => if bool_decide (u_id u = i) then data u else u) <$> user_by_id j w.
Proof.
  intros Hid. unfold user_by_id, updated_users. simpl.
  induction (users w) as [| x l IH]; simpl; [reflexivity |].
  assert (Hx : u_id (if bool_decide (u_id x = i) then data x else x) = u_id x).
  { destruct (bool_decide (u_id x = i)); auto. }
  rewrite Hx. destruct (bool_decide (u_id x = j)); simpl; [reflexivity | exact IH].
Qed.

Lemma user_by_id_id i w u : user_by_id i w = Some u → u_id u = i.
Proof.
  intros H. apply find_some in H as [_ H]. by apply bool_decide_eq_true in H.
Qed.

Lemma company_by_id_updated i data w j :
  company_by_id j (updated_users i data w) = company_by_id j w.
Proof. reflexivity. Qed.

Lemma with_refreshToken_id t u : u_id (with_refreshToken t u) = u_id u.
Proof. reflexivity. Qed.
Lemma with_login_id now t u : u_id (with_login now t u) = u_id u.
Proof. reflexivity. Qed.
Lemma with_password_id now h u : u_id (with_password now h u) = u_id u.
Proof. reflexivity. Qed.

(** *** Gates of login and refresh *)

(** C5. An identity whose status is INACTIVE or SUSPENDED, or an ACTIVE one
    whose company is inactive, cannot log in and cannot refresh: a login
    under its email throws and changes nothing, with a Forbidden error when
    the password is the right one; a refresh with a token that verifies and
    names it throws and changes nothing, with a Forbidden error when the
    token is the stored one.  No token pair is issued and the stored refresh
    token stays as it was. *)
Theorem gated_identity_cannot_login_or_refresh
    (K : Constants) (tm : TokensModule) (w : World) (now : Z) (u : User) :
  gated w u →
  (∀ email password,
     user_by_email (toLowerCase email) w = Some u →
     ∃ t, login K tm email password now w = (Throws t, w)
          ∧ (comparePassword password (u_password u) = true → thrown_with FORBIDDEN t))
  ∧ (∀ T d,
       verifyRefreshToken K tm now T = Returns d →
       user_by_id (p_id (payload d)) w = Some u →
       ∃ t, refreshAccessToken K tm T now w = (Throws t, w)
            ∧ (u_refreshToken u = Some T → thrown_with FORBIDDEN t)).
Proof.
  intros Hg. split.
  - intros email password Hfind. unfold login. run. rewrite Hfind. simpl.
    destruct (comparePassword password (u_password u)); simpl.
    2:{ eexists; split; [reflexivity | discriminate]. }
    destruct Hg as [Hs | [Hs | (Hs & c & Hc & Hact)]]; rewrite Hs; simpl.
    + eexists; split; [reflexivity |]. intros _. eexists; split; reflexivity.
    + eexists; split; [reflexivity |]. intros _. eexists; split; reflexivity.
    + rewrite Hc, Hact. simpl.
      eexists; split; [reflexivity |]. intros _. eexists; split; reflexivity.
  - intros T d Hv Hfind. unfold refreshAccessToken.
    assert (Htr : token_truthy T = true).
    { destruct T; [| reflexivity]. discriminate Hv. }
    rewrite Htr. run. rewrite Hv. simpl. rewrite Hfind. simpl.
    case_bool_decide as Hst; simpl.
    2:{ eexists; split; [reflexivity |]. intros; contradiction. }
    destruct Hg as [Hs | [Hs | (Hs & c & Hc & Hact)]]; rewrite Hs; simpl.
    + eexists; split; [reflexivity |]. intros _. eexists; split; reflexivity.
    + eexists; split; [reflexivity |]. intros _. eexists; split; reflexivity.
    + rewrite Hc, Hact. simpl.
      eexists; split; [reflexivity |]. intros _. eexists; split; reflexivity.
Qed.

Lemma gated_identity_cannot_login_or_refresh_witness :
  gated Sample.world Sample.bob
  ∧ (∀ email password,
       user_by_email (toLowerCase email) Sample.world = Some Sample.bob →
       ∃ t, login Sample.constants Sample.tm_shared email password 100 Sample.world
            = (Throws t, Sample.world)
            ∧ (comparePassword password (u_password Sample.bob) = true →
               thrown_with FORBIDDEN t))
  ∧ (∀ T d,
       verifyRefreshToken Sample.constants Sample.tm_shared 100 T = Returns d →
       user_by_id (p_id (payload d)) Sample.world = Some Sample.bob →
       ∃ t, refreshAccessToken Sample.constants Sample.tm_shared T 100 Sample.world
            = (Throws t, Sample.world)
            ∧ (u_refreshToken Sample.bob = Some T → thrown_with FORBIDDEN t)).
Proof.
  split; [right; left; reflexivity |].
  apply (gated_identity_cannot_login_or_refresh Sample.constants Sample.tm_shared
           Sample.world 100 Sample.bob).
  right; left; reflexivity.
Defined.

(** The three gates on the installation: a suspended account with the right
    password, an inactive company, and a suspended account with its stored
    refresh token. *)
Example suspended_login :
  login Sample.constants Sample.tm_shared "bob@acme.test" "Bob@12345" 100 Sample.world
  = (Throws (Api ApiErr.accountSuspended), Sample.world).
Proof. reflexivity. Qed.

Example inactive_company_login :
  login Sample.constants Sample.tm_shared "carol@dormant.test" "Carol@123" 100 Sample.world
  = (Throws (Api (ApiErr.forbidden "Company account is inactive")), Sample.world).
Proof. reflexivity. Qed.

Example suspended_refresh :
  refreshAccessToken Sample.constants Sample.tm_shared Sample.bob_token 100 Sample.world
  = (Throws (Api (ApiErr.forbidden "Account is not active")), Sample.world).
Proof. reflexivity. Qed.

(** *** Refresh *)



(** What a successful refresh went through. *)
Lemma refreshAccessToken_returns K tm T now w toks w1 :
  refreshAccessToken K tm T now w = (Returns toks, w1) →
  ∃ c u co,
    T = Signed (JWT_REFRESH_SECRET tm) c
    ∧ now < exp c
    ∧ user_by_id (p_id (payload c)) w = Some u
    ∧ u_refreshToken u = Some T
    ∧ u_status u = ACTIVE
    ∧ company_by_id (u_companyId u) w = Some co ∧ isActive co = true
    ∧ generateTokens K tm now (u_id u) (u_email u) (u_role u) (u_companyId u) (u_status u)
      = Returns toks
    ∧ w1 = updated_users (u_id u) (with_refreshToken (Some (refreshToken toks))) w.
Proof.
  unfold refreshAccessToken.
  destruct (token_truthy T); simpl; [| discriminate].
  run. unfold verifyRefreshToken.
  destruct (jwt_verify_cases now T (JWT_REFRESH_SECRET tm) (ISSUER K) (AUDIENCE K))
    as [(c & -> & -> & _ & Hexp & _) | [(-> & _) | (msg & -> & _)]];
    [| discriminate | discriminate].
  destruct (user_by_id (p_id (payload c)) w) as [u |] eqn:Hu; simpl; [| discriminate].
  case_bool_decide as Hst; simpl; [| discriminate].
  case_bool_decide as Hact; simpl; [| discriminate].
  destruct (company_by_id (u_companyId u) w) as [co |] eqn:Hco; [| discriminate].
  destruct (isActive co) eqn:Hco'; simpl; [| discriminate].
  unfold tokens_for, lift.
  destruct (generateTokens _ _ _ _ _ _ _ _) as [toks' |] eqn:Hgen; [| discriminate].
  rewrite (prisma_user_update_found _ _ _ _ (eq_trans (f_equal (fun i => user_by_id i w)
             (user_by_id_id _ _ _ Hu)) Hu)).
  intros [= <- <-].
  exists c, u, co. repeat split; auto.
Qed.

(** A token that is not the stored one of the identity it names is turned
    down with a 401 and nothing is written. *)
Lemma refreshAccessToken_rejects_other_token K tm T now w uid :
  token_truthy T = true →
  subject T = Some uid ∨ subject T = None →
  stored_token uid w ≠ Some (Some T) →
  ∃ t, refreshAccessToken K tm T now w = (Throws t, w) ∧ thrown_with UNAUTHORIZED t.
Proof.
  intros Htr Hsub Hst. unfold refreshAccessToken. rewrite Htr. run.
  unfold verifyRefreshToken.
  destruct (jwt_verify_cases now T (JWT_REFRESH_SECRET tm) (ISSUER K) (AUDIENCE K))
    as [(c & -> & -> & _) | [(-> & _) | (msg & -> & _)]].
  - destruct Hsub as [[= <-] | [=]].
    unfold stored_token in Hst.
    destruct (user_by_id (p_id (payload c)) w) as [u |]; simpl in *.
    + rewrite bool_decide_eq_false_2 by congruence. simpl.
      eexists; split; [reflexivity |]. eexists; split; reflexivity.
    + eexists; split; [reflexivity |]. eexists; split; reflexivity.
  - eexists; split; [reflexivity |]. eexists; split; reflexivity.
  - eexists; split; [reflexivity |]. eexists; split; reflexivity.
Qed.



(** Two more ways a refresh differs from "fails Unauthorized / succeeds":
    an empty token is a bad request, and the rotated token is turned down
    as expired once its seven days are over. *)
Example empty_token_is_bad_request :
  refreshAccessToken Sample.constants Sample.tm_shared (Unsigned "") 160 Sample.world
  = (Throws (Api (ApiErr.badRequest "Refresh token is required")), Sample.world).
Proof. reflexivity. Qed.

Example stored_token_expires :
  refreshAccessToken Sample.constants Sample.tm_shared Sample.alice_token 604900 Sample.world
  = (Throws (Api ApiErr.tokenExpired), Sample.world).
Proof. reflexivity. Qed.



(** *** Logout *)

Lemma deleteCache_tables key w :
  users (snd (deleteCache key w)) = users w
  ∧ companies (snd (deleteCache key w)) = companies w
  ∧ permissions (snd (deleteCache key w)) = permissions w
  ∧ userPermissions (snd (deleteCache key w)) = userPermissions w.
Proof.
  unfold deleteCache, next_fault.
  destruct (redis w); [| auto].
  destruct (redis_faults w) as [| [] ?]; simpl; auto.
Qed.

Lemma user_by_id_deleteCache key w i :
  user_by_id i (snd (deleteCache key w)) = user_by_id i w.
Proof.
  unfold user_by_id. destruct (deleteCache_tables key w) as (-> & _). reflexivity.
Qed.

(** A [DEL] that is carried out leaves no entry under the key. *)
Lemma deleteCache_removes key w :
  redis_answers w → cached key (snd (deleteCache key w)) = None.
Proof.
  unfold redis_answers, cached, deleteCache, next_fault. intros Hans.
  destruct (redis w) as [r |] eqn:Hr; simpl; [| rewrite Hr; reflexivity].
  destruct Hans as [Hans | Hans]; [discriminate |].
  destruct (redis_faults w) as [| [] ?]; simpl in *; try congruence;
    apply lookup_delete_eq.
Qed.

Lemma logout_runs uid w u :
  user_by_id uid w = Some u →
  logout uid w
  = (Returns tt, snd (deleteCache (permissions_key uid)
                        (updated_users uid (with_refreshToken None) w))).
Proof.
  intros Hu. unfold logout. run.
  rewrite (prisma_user_update_found _ _ _ _ Hu). reflexivity.
Qed.

Lemma stored_token_after_clear uid w u key :
  user_by_id uid w = Some u →
  stored_token uid (snd (deleteCache key (updated_users uid (with_refreshToken None) w)))
  = Some None.
Proof.
  intros Hu. unfold stored_token.
  rewrite user_by_id_deleteCache, user_by_id_updated by apply with_refreshToken_id.
  rewrite Hu. simpl.
  rewrite bool_decide_eq_true_2 by (eapply user_by_id_id; eauto). reflexivity.
Qed.

(** Deleting the key again after a deletion that was carried out leaves
    the cache as it was, whether the second [DEL] is carried out or not. *)
Lemma deleteCache_again key i data w :
  redis_answers w →
  redis (snd (deleteCache key
                (updated_users i data (snd (deleteCache key (updated_users i data w))))))
  = redis (snd (deleteCache key (updated_users i data w))).
Proof.
  unfold redis_answers.
  destruct w as [us cs ps ups [r |] fs]; [| reflexivity].
  destruct fs as [| [] fs]; simpl; intros [Hans | Hans]; try congruence.
  - unfold deleteCache, next_fault. simpl. rewrite delete_delete_eq. reflexivity.
  - unfold deleteCache, next_fault. simpl.
    destruct fs as [| [] ?]; simpl; try reflexivity;
      rewrite delete_delete_eq; reflexivity.
Qed.

(** C6, as the specification words it, fails when Redis rejects the [DEL]:
    logout completes and the cached permission entry is still there. *)
Lemma logout_with_redis_down_keeps_cache_entry :
  ¬ logout_clears_token_and_cache Sample.world_granted_redis_down "u1".
Proof.
  intros H.
  destruct (H _ eq_refl) as [_ Hc].
  vm_compute in Hc. discriminate Hc.
Qed.

(** C6, amended. Logout of an existing identity completes; afterwards the
    stored refresh token is null, and the entry under the identity's
    permission key is gone whenever Redis carried the deletion out (a
    rejected deletion is logged and ignored); every later refresh with a
    non-empty token naming this identity is turned down with a 401 error
    and writes nothing; and a second logout completes as well, leaving the
    user table as the first left it and, if the first deletion was carried
    out, the cache too. *)
Theorem logout_postcondition (w : World) (uid : string) (u : User) :
  user_by_id uid w = Some u →
  ∃ w1,
    logout uid w = (Returns tt, w1)
    ∧ stored_token uid w1 = Some None
    ∧ (redis_answers w → cached (permissions_key uid) w1 = None)
    ∧ (∀ K tm T now,
         token_truthy T = true → subject T = Some uid ∨ subject T = None →
         ∃ t, refreshAccessToken K tm T now w1 = (Throws t, w1)
              ∧ thrown_with UNAUTHORIZED t)
    ∧ ∃ w2, logout uid w1 = (Returns tt, w2)
            ∧ users w2 = users w1
            ∧ stored_token uid w2 = Some None
            ∧ (redis_answers w → redis w2 = redis w1).
Proof.
  intros Hu.
  set (key := permissions_key uid).
  set (w0 := updated_users uid (with_refreshToken None) w).
  exists (snd (deleteCache key w0)).
  assert (Hu1 : user_by_id uid (snd (deleteCache key w0)) = Some (with_refreshToken None u)).
  { rewrite user_by_id_deleteCache. unfold w0.
    rewrite user_by_id_updated by apply with_refreshToken_id. rewrite Hu. simpl.
    rewrite bool_decide_eq_true_2 by (eapply user_by_id_id; eauto). reflexivity. }
  split; [apply (logout_runs _ _ _ Hu) |].
  split; [apply (stored_token_after_clear _ _ _ _ Hu) |].
  split; [intros Hans; apply deleteCache_removes; exact Hans |].
  split.
  - intros K tm T now Htr Hsub.
    apply refreshAccessToken_rejects_other_token with (uid := uid); auto.
    unfold stored_token. rewrite Hu1. discriminate.
  - eexists. split; [apply (logout_runs _ _ _ Hu1) |].
    split; [| split].
    + subst key w0.
      destruct (deleteCache_tables (permissions_key uid)
                  (updated_users uid (with_refreshToken None)
                     (snd (deleteCache (permissions_key uid)
                             (updated_users uid (with_refreshToken None) w)))))
        as (-> & _).
      destruct (deleteCache_tables (permissions_key uid)
                  (updated_users uid (with_refreshToken None) w)) as (Hus & _).
      unfold updated_users at 1. simpl. rewrite Hus. unfold updated_users. simpl.
      rewrite map_map. apply map_ext. intros x.
      destruct (bool_decide (u_id x = uid)) eqn:Hx; simpl; rewrite Hx; reflexivity.
    + apply (stored_token_after_clear _ _ _ _ Hu1).
    + intros Hans. subst key w0. apply deleteCache_again. exact Hans.
Qed.

Lemma logout_postcondition_witness :
  user_by_id "u1" Sample.world_granted = Some Sample.alice
  ∧ ∃ w1,
      logout "u1" Sample.world_granted = (Returns tt, w1)
      ∧ stored_token "u1" w1 = Some None
      ∧ (redis_answers Sample.world_granted → cached (permissions_key "u1") w1 = None).
Proof.
  split; [reflexivity |].
  destruct (logout_postcondition Sample.world_granted "u1" Sample.alice eq_refl)
    as (w1 & Hrun & Hst & Hcache & _).
  exists w1. auto.
Defined.

(** *** Change of password *)

(** C7, as the specification words it, fails: the core operation accepts a
    new password equal to the current one. *)
Lemma core_accepts_unchanged_password :
  ¬ core_rejects_unchanged_password Sample.world "u1" "Secret@123".
Proof.
  intros H. destruct (H 300 "salt2") as [t Ht].
  vm_compute in Ht. discriminate Ht.
Qed.

(** C7, amended. The core operation checks the current password against
    the stored hash and throws when it does not verify, writing nothing; when
    it verifies, it stores the hash of the new password, records the instant
    of the change and sets the stored refresh token to null, also when the
    new password equals the current one.  The rule that the new password
    differs from the current one belongs to the request schema: a body it
    accepts has the two different. *)
Theorem changePassword_contract
    (w : World) (uid current new : string) (now : Z) (salt : string) (u : User) :
  user_by_id uid w = Some u →
  (comparePassword current (u_password u) = false →
   changePassword uid current new now salt w
   = (Throws (Api (ApiErr.badRequest "Current password is incorrect")), w))
  ∧ (comparePassword current (u_password u) = true →
     ∃ w1 u1,
       changePassword uid current new now salt w = (Returns tt, w1)
       ∧ user_by_id uid w1 = Some u1
       ∧ u_password u1 = hashPassword salt new
       ∧ comparePassword new (u_password u1) = true
       ∧ u_passwordChangedAt u1 = Some now
       ∧ u_refreshToken u1 = None)
  ∧ (∀ b, changePasswordSchema b = true → newPassword b ≠ currentPassword b).
Proof.
  intros Hu. split; [| split].
  - intros Hpw. unfold changePassword. run. rewrite Hu, Hpw. reflexivity.
  - intros Hpw. unfold changePassword. run. rewrite Hu, Hpw. simpl.
    rewrite (prisma_user_update_found _ _ _ _ Hu).
    exists (updated_users uid (with_password now (hashPassword salt new)) w),
           (with_password now (hashPassword salt new) u).
    split; [reflexivity |]. split.
    + rewrite user_by_id_updated by apply with_password_id. rewrite Hu. simpl.
      rewrite bool_decide_eq_true_2 by (eapply user_by_id_id; eauto). reflexivity.
    + simpl. rewrite bool_decide_eq_true_2 by reflexivity. auto.
  - intros [c n f] Hok. unfold changePasswordSchema in Hok. simpl in *.
    destruct c as [c |], n as [n |], f as [f |]; try discriminate.
    intros [= ->].
    rewrite bool_decide_eq_true_2 in Hok by reflexivity.
    rewrite andb_false_r in Hok. discriminate.
Qed.

Lemma changePassword_contract_witness :
  user_by_id "u1" Sample.world = Some Sample.alice
  ∧ comparePassword "Secret@123" (u_password Sample.alice) = true
  ∧ ∃ w1 u1,
      changePassword "u1" "Secret@123" "N3w@Secret" 300 "salt2" Sample.world
      = (Returns tt, w1)
      ∧ user_by_id "u1" w1 = Some u1
      ∧ u_password u1 = hashPassword "salt2" "N3w@Secret"
      ∧ comparePassword "N3w@Secret" (u_password u1) = true
      ∧ u_passwordChangedAt u1 = Some 300
      ∧ u_refreshToken u1 = None.
Proof.
  split; [reflexivity |]. split; [reflexivity |].
  apply (changePassword_contract Sample.world "u1" "Secret@123" "N3w@Secret" 300 "salt2"
           Sample.alice eq_refl).
  reflexivity.
Defined.

(** *** What login and register hand back *)

Lemma rest_without_drops keys o k : k ∈ keys → ¬ has_property k (rest_without keys o).
Proof.
  unfold has_property, rest_without. intros Hk Hin.
  apply list_elem_of_fmap in Hin as ([k' v] & -> & Hin).
  apply list_elem_of_filter in Hin as [Hn _]. simpl in Hn. contradiction.
Qed.

Lemma select_keeps_listed keys o k : has_property k (select keys o) → k ∈ keys.
Proof.
  unfold has_property, select. intros Hin.
  apply list_elem_of_fmap in Hin as ([k' v] & -> & Hin).
  apply list_elem_of_filter in Hin as [Hk _]. exact Hk.
Qed.

Lemma prisma_user_update_member i data w u :
  In u (users w) → u_id u = i →
  prisma_user_update i data w = (Returns tt, updated_users i data w).
Proof.
  intros Hin Hid. unfold prisma_user_update.
  replace (existsb _ (users w)) with true; [reflexivity |].
  symmetry. apply existsb_exists. exists u. split; [exact Hin |].
  by apply bool_decide_eq_true.
Qed.

(** A literal key is not in a literal list of other keys. *)
Ltac not_listed H :=
  repeat (apply elem_of_cons in H as [H | H]; [discriminate H |]);
  apply elem_of_nil in H; contradiction.

Ltac no_credential Hk u :=
  first
    [ split; intros; discriminate
    | split; intros; destruct (u_phone u); discriminate
    | split; intros; destruct (u_lastLoginAt u); discriminate
    | split; intros; destruct (u_passwordChangedAt u); discriminate
    | exfalso; apply Hk; repeat constructor
    | exfalso; not_listed Hk ].

Lemma login_returns K tm email password now w r w1 :
  login K tm email password now w = (Returns r, w1) →
  ∃ u co,
    user_by_email (toLowerCase email) w = Some u
    ∧ comparePassword password (u_password u) = true
    ∧ u_status u = ACTIVE
    ∧ company_by_id (u_companyId u) w = Some co ∧ isActive co = true
    ∧ res_user r = rest_without ["password"; "refreshToken"]
                     (user_object u ++ [("company", JObject (company_object co))])
    ∧ generateTokens K tm now (u_id u) (u_email u) (u_role u) (u_companyId u) (u_status u)
      = Returns (res_tokens r)
    ∧ w1 = updated_users (u_id u) (with_login now (refreshToken (res_tokens r))) w.
Proof.
  unfold login. run.
  destruct (user_by_email (toLowerCase email) w) as [u |] eqn:Hu; simpl; [| discriminate].
  destruct (comparePassword password (u_password u)) eqn:Hpw; simpl; [| discriminate].
  case_bool_decide as Hin; simpl; [discriminate |].
  case_bool_decide as Hsu; simpl; [discriminate |].
  destruct (company_by_id (u_companyId u) w) as [co |] eqn:Hco; [| discriminate].
  destruct (isActive co) eqn:Hco'; simpl; [| discriminate].
  unfold tokens_for, lift.
  destruct (generateTokens _ _ _ _ _ _ _ _) as [toks |] eqn:Hgen; [| discriminate].
  rewrite (prisma_user_update_member _ _ _ u);
    [| apply find_some in Hu as [Hu _]; exact Hu | reflexivity].
  intros [= <- <-]. exists u, co. simpl. repeat split; auto.
  destruct (u_status u); congruence.
Qed.

Lemma register_returns K tm userData now salt newId w r w1 :
  register K tm userData now salt newId w = (Returns r, w1) →
  ∃ u co,
    u_password u = hashPassword salt (rd_password userData)
    ∧ company_by_id (rd_companyId userData) w = Some co
    ∧ res_user r
      = select ["id"; "email"; "name"; "phone"; "role"; "status"; "companyId"; "createdAt"]
          (user_object u)
        ++ [("company", JObject (select ["id"; "name"] (company_object co)))].
Proof.
  unfold register. run.
  destruct (user_by_email _ w); simpl; [discriminate |].
  destruct (company_by_id (rd_companyId userData) w) as [co |] eqn:Hco; [| discriminate].
  destruct (isActive co); simpl; [| discriminate].
  unfold prisma_user_create. simpl.
  destruct (existsb _ (users w)); [discriminate |].
  unfold tokens_for, lift. simpl.
  destruct (generateTokens _ _ _ _ _ _ _ _) as [toks |]; [| discriminate].
  match goal with
  | |- context [prisma_user_update ?i ?d ?w'] =>
      destruct (prisma_user_update i d w') as [[[] | ?] ?]; [| discriminate]
  end.
  intros [= <- <-].
  exists (create_data userData (hashPassword salt (rd_password userData)) now newId), co.
  split; [| split]; reflexivity.
Qed.

(** C10. The user object of a successful login has no [password] and no
    [refreshToken] property and none of its properties holds a hash or a
    token: the refresh token travels in the [tokens] object only.  The user
    object of a successful register has no [password] property either (nor a
    [refreshToken] one), and no property holding a hash or a token. *)
Theorem responses_carry_no_credentials (K : Constants) (tm : TokensModule) :
  (∀ email password now w r w1,
     login K tm email password now w = (Returns r, w1) →
     ¬ has_property "password" (res_user r)
     ∧ ¬ has_property "refreshToken" (res_user r)
     ∧ credential_free (res_user r))
  ∧ (∀ userData now salt newId w r w1,
       register K tm userData now salt newId w = (Returns r, w1) →
       ¬ has_property "password" (res_user r)
       ∧ ¬ has_property "refreshToken" (res_user r)
       ∧ credential_free (res_user r)).
Proof.
  split.
  - intros email password now w r w1 Hrun.
    apply login_returns in Hrun as (u & co & _ & _ & _ & _ & _ & -> & _).
    split; [apply rest_without_drops; repeat constructor |].
    split; [apply rest_without_drops; repeat constructor |].
    intros k v Hin. unfold rest_without in Hin.
    apply list_elem_of_filter in Hin as [Hk Hin]. simpl in Hk.
    apply elem_of_app in Hin as [Hin | Hin].
    + unfold user_object in Hin.
      repeat (apply elem_of_cons in Hin as [[= -> ->] | Hin]; [no_credential Hk u |]).
      apply elem_of_nil in Hin. contradiction.
    + apply list_elem_of_singleton in Hin as [= -> ->]. split; intros; discriminate.
  - intros userData now salt newId w r w1 Hrun.
    apply register_returns in Hrun as (u & co & _ & _ & ->).
    assert (Hkeys : ∀ k, has_property k
                      (select ["id"; "email"; "name"; "phone"; "role"; "status";
                               "companyId"; "createdAt"] (user_object u)
                       ++ [("company", JObject (select ["id"; "name"] (company_object co)))]) →
                    k ≠ "password" ∧ k ≠ "refreshToken").
    { intros k Hin. unfold has_property in Hin. rewrite fmap_app in Hin.
      apply elem_of_app in Hin as [Hin | Hin].
      - apply select_keeps_listed in Hin. split; intros ->; not_listed Hin.
      - simpl in Hin. apply list_elem_of_singleton in Hin as ->. split; discriminate. }
    split; [intros Hin; apply Hkeys in Hin as [? _]; congruence |].
    split; [intros Hin; apply Hkeys in Hin as [_ ?]; congruence |].
    intros k v Hin. apply elem_of_app in Hin as [Hin | Hin].
    + unfold select in Hin. apply list_elem_of_filter in Hin as [Hk Hin]. simpl in Hk.
      unfold user_object in Hin.
      repeat (apply elem_of_cons in Hin as [[= -> ->] | Hin]; [no_credential Hk u |]).
      apply elem_of_nil in Hin. contradiction.
    + apply list_elem_of_singleton in Hin as [= -> ->]. split; intros; discriminate.
Qed.

Lemma responses_carry_no_credentials_witness :
  (∃ r w1,
     login Sample.constants Sample.tm_shared "alice@acme.test" "Secret@123" 160 Sample.world
     = (Returns r, w1)
     ∧ ¬ has_property "password" (res_user r)
     ∧ ¬ has_property "refreshToken" (res_user r)
     ∧ credential_free (res_user r))
  ∧ (∃ r w1,
       register Sample.constants Sample.tm_shared
         (mkRegisterData "Dave@Acme.test" "Dave@1234" "Dave" None None "c1")
         170 "salt3" "u4" Sample.world
       = (Returns r, w1)
       ∧ ¬ has_property "password" (res_user r)
       ∧ ¬ has_property "refreshToken" (res_user r)
       ∧ credential_free (res_user r)).
Proof.
  destruct (responses_carry_no_credentials Sample.constants Sample.tm_shared)
    as [Hlogin Hregister].
  split.
  - destruct (login Sample.constants Sample.tm_shared "alice@acme.test" "Secret@123" 160
                Sample.world) as [[r | t] w1] eqn:Hrun;
      [| vm_compute in Hrun; discriminate Hrun].
    exists r, w1. split; [reflexivity |]. eapply Hlogin. exact Hrun.
  - destruct (register Sample.constants Sample.tm_shared
                (mkRegisterData "Dave@Acme.test" "Dave@1234" "Dave" None None "c1")
                170 "salt3" "u4" Sample.world) as [[r | t] w1] eqn:Hrun;
      [| vm_compute in Hrun; discriminate Hrun].
    exists r, w1. split; [reflexivity |]. eapply Hregister. exact Hrun.
Defined.

(** ** Permission resolver *)

(** C8. For an identity whose role is SUPERADMIN, [checkPermission] returns
    true on every triple and leaves the stores untouched: no Redis command
    is sent, and the answer is the same whatever the cache and the
    assignment table hold.  [assignPermissionsToUser] on such an identity
    throws a bad-request error and writes nothing, whatever the permission
    ids. *)
Theorem superadmin_bypass_and_assignment_rejection
    (K : Constants) (w : World) (uid : string) (u : User) :
  user_by_id uid w = Some u → u_role u = SUPERADMIN →
  (∀ module_ action resource now,
     checkPermission K uid module_ action resource now w = (Returns true, w))
  ∧ (∀ module_ action resource now w',
       users w' = users w →
       fst (checkPermission K uid module_ action resource now w') = Returns true)
  ∧ (∀ permissionIds by_ now,
       assignPermissionsToUser uid permissionIds by_ now w
       = (Throws (Api (ApiErr.badRequest "Cannot assign permissions to superadmin users")), w)).
Proof.
  intros Hu Hrole. split; [| split].
  - intros. unfold checkPermission. run. rewrite Hu, Hrole. reflexivity.
  - intros m a r now w' Hw'. unfold checkPermission. run.
    unfold user_by_id in *. rewrite Hw', Hu, Hrole. reflexivity.
  - intros. unfold assignPermissionsToUser. run. rewrite Hu, Hrole. reflexivity.
Qed.

Lemma superadmin_bypass_and_assignment_rejection_witness :
  user_by_id "u0" Sample.world = Some Sample.root
  ∧ u_role Sample.root = SUPERADMIN
  ∧ checkPermission Sample.constants "u0" "ledger" "delete" "journals" 200 Sample.world
    = (Returns true, Sample.world)
  ∧ assignPermissionsToUser "u0" ["p1"] "u0" 200 Sample.world
    = (Throws (Api (ApiErr.badRequest "Cannot assign permissions to superadmin users")),
       Sample.world).
Proof.
  split; [reflexivity |]. split; [reflexivity |].
  destruct (superadmin_bypass_and_assignment_rejection Sample.constants Sample.world
              "u0" Sample.root eq_refl eq_refl) as (Hcheck & _ & Hassign).
  split; [apply Hcheck | apply Hassign].
Defined.

Lemma hasPermission_elem (l : list PermTuple) (m a r : string) :
  hasPermission l m a r = true ↔ mkPermTuple m a r ∈ l.
Proof.
  unfold hasPermission. rewrite existsb_exists. split.
  - intros ([m' a' r'] & Hin & H). simpl in H.
    apply andb_true_iff in H as [H Hr]. apply andb_true_iff in H as [Hm Ha].
    apply bool_decide_eq_true in Hm, Ha, Hr. subst.
    by apply list_elem_of_In.
  - intros Hin. exists (mkPermTuple m a r). split; [by apply list_elem_of_In |].
    simpl. rewrite !bool_decide_eq_true_2 by reflexivity. reflexivity.
Qed.

Lemma granted_tuples_ext uid w w' :
  userPermissions w' = userPermissions w → permissions w' = permissions w →
  granted_tuples uid w' = granted_tuples uid w.
Proof.
  intros Hups Hps. unfold granted_tuples, permission_by_id. rewrite Hups, Hps. reflexivity.
Qed.

(** Without an entry under the identity's key, the check is answered from
    the assignment table, whatever Redis does with the commands it gets. *)
Lemma checkPermission_reads_store K uid m a r now w u :
  user_by_id uid w = Some u → u_role u ≠ SUPERADMIN →
  cached (CACHE_KEYS_USER_PERMISSIONS K uid) w = None →
  fst (checkPermission K uid m a r now w)
  = Returns (hasPermission (granted_tuples uid w) m a r).
Proof.
  intros Hu Hrole Hmiss. unfold checkPermission. run. rewrite Hu.
  rewrite bool_decide_eq_false_2 by exact Hrole.
  unfold getUserPermissions. run.
  unfold cached in Hmiss. unfold getCache, setCache, next_fault.
  destruct w as [us cs ps ups [rd |] fs]; simpl in *; [| reflexivity].
  rewrite Hmiss.
  destruct fs as [| [] fs]; simpl.
  - destruct (bool_decide (CACHE_TTL_MEDIUM K <= 0)); reflexivity.
  - destruct fs as [| [] fs]; simpl;
      try destruct (bool_decide (CACHE_TTL_MEDIUM K <= 0)); reflexivity.
  - destruct fs as [| [] fs]; simpl;
      try destruct (bool_decide (CACHE_TTL_MEDIUM K <= 0)); reflexivity.
Qed.

(** *** Assignment and revocation *)

Lemma filter_singleton_id (ps : list Permission) (gid : string) :
  filter (fun p => perm_id p ∈ [gid]) ps = filter (fun p => perm_id p = gid) ps.
Proof.
  apply list_filter_iff. intros p. apply list_elem_of_singleton.
Qed.

(** When exactly one permission of the catalog has the id, the lookup by id
    finds every permission that has it. *)
Lemma permission_by_id_unique (ps : list Permission) (gid : string) (g : Permission) :
  length (filter (fun p => perm_id p = gid) ps) = 1%nat →
  g ∈ ps → perm_id g = gid →
  find (fun p => bool_decide (perm_id p = gid)) ps = Some g.
Proof.
  induction ps as [| x ps IH]; intros Hlen Hin Hg.
  - apply elem_of_nil in Hin. contradiction.
  - rewrite filter_cons in Hlen. simpl. destruct (decide (perm_id x = gid)) as [Hx | Hx].
    + rewrite bool_decide_eq_true_2 by exact Hx.
      apply elem_of_cons in Hin as [-> | Hin]; [reflexivity |].
      simpl in Hlen.
      assert (Hg' : g ∈ filter (fun p => perm_id p = gid) ps)
        by (apply list_elem_of_filter; auto).
      destruct (filter (fun p => perm_id p = gid) ps); [| simpl in Hlen; lia].
      apply elem_of_nil in Hg'. contradiction.
    + rewrite bool_decide_eq_false_2 by exact Hx.
      apply elem_of_cons in Hin as [-> | Hin]; [contradiction |].
      apply IH; auto.
Qed.

(** After the upsert the pair is assigned and granted. *)
Lemma upsert_userPermission_grants uid by_ now rows gid :
  ∃ up, up ∈ upsert_userPermission uid by_ now rows gid
        ∧ up_userId up = uid ∧ up_permissionId up = gid ∧ granted up = true.
Proof.
  unfold upsert_userPermission.
  destruct (existsb (same_assignment uid gid) rows) eqn:Hex.
  - apply existsb_exists in Hex as (x & Hin & Hx).
    exists (mkUserPermission (up_userId x) (up_permissionId x) true now by_).
    unfold same_assignment in Hx.
    apply andb_true_iff in Hx as [Hu Hp]. apply bool_decide_eq_true in Hu, Hp.
    split; [| auto].
    apply list_elem_of_In, in_map_iff. exists x. split; [| exact Hin].
    unfold same_assignment. rewrite !bool_decide_eq_true_2 by assumption. reflexivity.
  - exists (mkUserPermission uid gid true now by_). split; [| auto].
    apply elem_of_app. right. by apply list_elem_of_singleton.
Qed.

Lemma assignPermissionsToUser_returns uid gid by_ now w res w1 :
  assignPermissionsToUser uid [gid] by_ now w = (Returns res, w1) →
  ∃ u, user_by_id uid w = Some u ∧ u_role u ≠ SUPERADMIN
       ∧ length (filter (fun p => perm_id p = gid) (permissions w)) = 1%nat
       ∧ w1 = snd (deleteCache (permissions_key uid)
                     (set_userPermissions
                        (upsert_userPermission uid by_ now (userPermissions w) gid) w)).
Proof.
  unfold assignPermissionsToUser. run.
  destruct (user_by_id uid w) as [u |]; [| discriminate].
  case_bool_decide as Hrole; simpl; [discriminate |].
  rewrite filter_singleton_id.
  case_bool_decide as Hlen; simpl; [| discriminate].
  intros [= <- <-]. exists u. auto.
Qed.

Lemma revokePermissionsFromUser_returns uid ids w res w1 :
  revokePermissionsFromUser uid ids w = (Returns res, w1) →
  w1 = snd (deleteCache (permissions_key uid)
              (set_userPermissions
                 (filter (fun up => revoked uid ids up = false) (userPermissions w)) w)).
Proof.
  unfold revokePermissionsFromUser. run.
  destruct (user_by_id uid w) as [u |]; [| discriminate].
  intros [= <- <-]. reflexivity.
Qed.

Lemma granted_after_assign uid by_ now w g :
  length (filter (fun p => perm_id p = perm_id g) (permissions w)) = 1%nat →
  g ∈ permissions w →
  tuple_of g ∈ granted_tuples uid
                 (set_userPermissions
                    (upsert_userPermission uid by_ now (userPermissions w) (perm_id g)) w).
Proof.
  intros Hlen Hg. unfold granted_tuples. apply list_elem_of_omap.
  destruct (upsert_userPermission_grants uid by_ now (userPermissions w) (perm_id g))
    as (up & Hin & Hu & Hp & Hgr).
  exists up. split.
  - apply list_elem_of_filter. auto.
  - unfold permission_by_id. simpl. rewrite Hp.
    rewrite (permission_by_id_unique _ _ g Hlen Hg eq_refl). reflexivity.
Qed.

Lemma not_granted_after_revoke uid w g :
  triples_unique w → g ∈ permissions w →
  tuple_of g ∉ granted_tuples uid
                 (set_userPermissions
                    (filter (fun up => revoked uid [perm_id g] up = false)
                       (userPermissions w)) w).
Proof.
  intros Huniq Hg Hin. unfold granted_tuples in Hin.
  apply list_elem_of_omap in Hin as (up & Hup & Hp).
  apply list_elem_of_filter in Hup as [[Hu _] Hup].
  simpl in Hup. apply list_elem_of_filter in Hup as [Hkept _].
  unfold permission_by_id in Hp. simpl in Hp.
  destruct (find _ (permissions w)) as [p |] eqn:Hfind; [| discriminate].
  assert (Ht : tuple_of p = tuple_of g) by (simpl in Hp; congruence).
  apply find_some in Hfind as [Hpin Hpid].
  apply bool_decide_eq_true in Hpid.
  assert (Hsame : perm_id p = perm_id g).
  { apply Huniq; auto. by apply list_elem_of_In. }
  unfold revoked in Hkept.
  rewrite (bool_decide_eq_true_2 _ Hu) in Hkept. simpl in Hkept.
  rewrite bool_decide_eq_true_2 in Hkept; [discriminate |].
  apply list_elem_of_singleton. congruence.
Qed.

(** C2, as the specification words it, fails when Redis rejects the [DEL]
    of the mutating call: the revocation returns, the entry cached before
    it stays, and the check that follows still answers true. *)
Lemma revoked_permission_still_granted_from_stale_cache :
  ¬ check_follows_mutation Sample.constants Sample.world_granted_redis_down
      "u1" Sample.read_invoices.
Proof.
  intros [_ Hrevoke].
  specialize (Hrevoke 200 _ _ eq_refl).
  vm_compute in Hrevoke. discriminate Hrevoke.
Qed.

(** C2, amended. Let the middleware read the cache under the key the
    services delete, and let Redis carry out the deletion of the mutating
    call (or be absent).  Then for a non-superadmin identity U and a
    permission G of the catalog: once [assignPermissionsToUser(U, [G])] has
    returned, [checkPermission(U, G)] returns true; and, the triples of the
    catalog being unique, once [revokePermissionsFromUser(U, [G])] has
    returned, [checkPermission(U, G)] returns false. *)
Theorem check_after_mutation
    (K : Constants) (w : World) (uid : string) (u : User) (g : Permission) :
  CACHE_KEYS_USER_PERMISSIONS K uid = permissions_key uid →
  redis_answers w →
  user_by_id uid w = Some u → u_role u ≠ SUPERADMIN →
  g ∈ permissions w →
  (∀ by_ now now' res w1,
     assignPermissionsToUser uid [perm_id g] by_ now w = (Returns res, w1) →
     fst (checkPermission K uid (perm_module g) (perm_action g) (perm_resource g) now' w1)
     = Returns true)
  ∧ (triples_unique w →
     ∀ now' res w1,
       revokePermissionsFromUser uid [perm_id g] w = (Returns res, w1) →
       fst (checkPermission K uid (perm_module g) (perm_action g) (perm_resource g) now' w1)
       = Returns false).
Proof.
  intros Hkey Hans Hu Hrole Hg. split.
  - intros by_ now now' res w1 Hrun.
    apply assignPermissionsToUser_returns in Hrun as (u' & _ & _ & Hlen & ->).
    set (w' := set_userPermissions
                 (upsert_userPermission uid by_ now (userPermissions w) (perm_id g)) w).
    destruct (deleteCache_tables (permissions_key uid) w') as (_ & _ & Hps & Hups).
    rewrite (checkPermission_reads_store K uid _ _ _ now' _ u).
    + f_equal. apply hasPermission_elem.
      rewrite (granted_tuples_ext uid w' _ Hups Hps).
      apply granted_after_assign; auto.
    + rewrite user_by_id_deleteCache. exact Hu.
    + exact Hrole.
    + rewrite Hkey. apply deleteCache_removes. exact Hans.
  - intros Huniq now' res w1 Hrun.
    apply revokePermissionsFromUser_returns in Hrun as ->.
    set (w' := set_userPermissions
                 (filter (fun up => revoked uid [perm_id g] up = false)
                    (userPermissions w)) w).
    destruct (deleteCache_tables (permissions_key uid) w') as (_ & _ & Hps & Hups).
    rewrite (checkPermission_reads_store K uid _ _ _ now' _ u).
    + f_equal. apply not_true_is_false. intros Hhas.
      apply hasPermission_elem in Hhas.
      rewrite (granted_tuples_ext uid w' _ Hups Hps) in Hhas.
      revert Hhas. apply not_granted_after_revoke; auto.
    + rewrite user_by_id_deleteCache. exact Hu.
    + exact Hrole.
    + rewrite Hkey. apply deleteCache_removes. exact Hans.
Qed.

Lemma check_after_mutation_witness :
  CACHE_KEYS_USER_PERMISSIONS Sample.constants "u1" = permissions_key "u1"
  ∧ redis_answers Sample.world_granted
  ∧ user_by_id "u1" Sample.world_granted = Some Sample.alice
  ∧ u_role Sample.alice ≠ SUPERADMIN
  ∧ Sample.read_invoices ∈ permissions Sample.world_granted
  ∧ triples_unique Sample.world_granted
  ∧ (∃ res w1,
       revokePermissionsFromUser "u1" ["p1"] Sample.world_granted = (Returns res, w1)
       ∧ fst (checkPermission Sample.constants "u1" "sales" "read" "invoices" 200 w1)
         = Returns false)
  ∧ (∃ res w1,
       assignPermissionsToUser "u1" ["p1"] "u0" 150 Sample.world = (Returns res, w1)).
Proof.
  assert (Hans : redis_answers Sample.world_granted) by (right; discriminate).
  assert (Hin : Sample.read_invoices ∈ permissions Sample.world_granted)
    by (simpl; repeat constructor).
  assert (Huniq : triples_unique Sample.world_granted).
  { intros p q Hp Hq. simpl in Hp, Hq.
    apply elem_of_cons in Hp as [-> | Hp]; apply elem_of_cons in Hq as [-> | Hq];
      try (apply list_elem_of_singleton in Hp as ->);
      try (apply list_elem_of_singleton in Hq as ->);
      intros Heq; try reflexivity; discriminate Heq. }
  split; [reflexivity |]. split; [exact Hans |]. split; [reflexivity |].
  split; [discriminate |]. split; [exact Hin |]. split; [exact Huniq |].
  destruct (check_after_mutation Sample.constants Sample.world_granted "u1"
              Sample.alice Sample.read_invoices eq_refl Hans eq_refl
              ltac:(discriminate) Hin) as [_ Hrevoke].
  split.
  - destruct (revokePermissionsFromUser "u1" ["p1"] Sample.world_granted)
      as [[res | t] w1] eqn:Hrun; [| vm_compute in Hrun; discriminate Hrun].
    exists res, w1. split; [reflexivity |].
    apply (Hrevoke Huniq 200 res w1). exact Hrun.
  - eexists _, _. vm_compute. reflexivity.
Defined.

(* ===================================================================== *)
(** * Further properties of the code *)
(* ===================================================================== *)

(** ** Token codec *)

(** X1. A pair issued by [generateTokens] verifies under its own profile
    until it expires and is reported expired from then on: the access token
    gives back the five fields of the user under [verifyAccessToken], the
    refresh token the subject and email under [verifyRefreshToken], both
    stamped with the instant of issue. *)
Theorem issued_tokens_round_trip
    (K : Constants) (tm : TokensModule) (now : Z) (uid email company : string)
    (role : USER_ROLES) (status : USER_STATUS) (toks : Tokens) :
  generateTokens K tm now uid email role company status = Returns toks →
  (∀ now', now' < now + ACCESS_TOKEN_EXPIRY K →
     verifyAccessToken K tm now' (accessToken toks)
     = Returns (mkClaims (mkPayload uid email (Some role) (Some company) (Some status))
                  now (now + ACCESS_TOKEN_EXPIRY K) (ISSUER K) (AUDIENCE K)))
  ∧ (∀ now', now + ACCESS_TOKEN_EXPIRY K <= now' →
       verifyAccessToken K tm now' (accessToken toks) = Throws (Api ApiErr.tokenExpired))
  ∧ (∀ now', now' < now + REFRESH_TOKEN_EXPIRY K →
       verifyRefreshToken K tm now' (refreshToken toks)
       = Returns (mkClaims (mkPayload uid email None None None)
                    now (now + REFRESH_TOKEN_EXPIRY K) (ISSUER K) (AUDIENCE K)))
  ∧ (∀ now', now + REFRESH_TOKEN_EXPIRY K <= now' →
       verifyRefreshToken K tm now' (refreshToken toks) = Throws (Api ApiErr.tokenExpired)).
Proof.
  unfold generateTokens.
  destruct (generateAccessToken _ _ _ _) as [a |] eqn:Ha; [| discriminate].
  destruct (generateRefreshToken _ _ _ _) as [r |] eqn:Hr; [| discriminate].
  intros [= <-]. simpl.
  apply generateAccessToken_returns in Ha as [Hsa ->].
  apply generateRefreshToken_returns in Hr as [Hsr ->].
  repeat split; intros now' Hnow; unfold verifyAccessToken, verifyRefreshToken.
  - rewrite jwt_verify_accepts by (simpl; auto). reflexivity.
  - simpl. rewrite Hsa. simpl. rewrite bool_decide_eq_true_2 by reflexivity. simpl.
    rewrite bool_decide_eq_true_2 by lia. reflexivity.
  - rewrite jwt_verify_accepts by (simpl; auto). reflexivity.
  - simpl. rewrite Hsr. simpl. rewrite bool_decide_eq_true_2 by reflexivity. simpl.
    rewrite bool_decide_eq_true_2 by lia. reflexivity.
Qed.

Lemma issued_tokens_round_trip_witness :
  (∃ toks,
     generateTokens Sample.constants Sample.tm_split 100 "u1" "alice@acme.test" VIEWER "c1" ACTIVE
     = Returns toks
     ∧ (∀ now', now' < 100 + ACCESS_TOKEN_EXPIRY Sample.constants →
          verifyAccessToken Sample.constants Sample.tm_split now' (accessToken toks)
          = Returns (mkClaims (mkPayload "u1" "alice@acme.test" (Some VIEWER) (Some "c1")
                                 (Some ACTIVE))
                       100 (100 + ACCESS_TOKEN_EXPIRY Sample.constants)
                       (ISSUER Sample.constants) (AUDIENCE Sample.constants)))).
Proof.
  destruct (generateTokens Sample.constants Sample.tm_split 100 "u1" "alice@acme.test" VIEWER
              "c1" ACTIVE) as [toks | t] eqn:Hgen; [| vm_compute in Hgen; discriminate Hgen].
  exists toks. split; [reflexivity |].
  apply (issued_tokens_round_trip Sample.constants Sample.tm_split 100 "u1" "alice@acme.test"
           "c1" VIEWER ACTIVE toks Hgen).
Defined.

Lemma substring_whole (s : string) : String.substring 0 (String.length s) s = s.
Proof. induction s as [| a s IH]; simpl; [reflexivity | by rewrite IH]. Qed.

Lemma append_cons (a : ascii) (x y : string) :
  (String a x +:+ y)%string = String a (x +:+ y)%string.
Proof. reflexivity. Qed.

Lemma append_nil (y : string) : ("" +:+ y)%string = y.
Proof. reflexivity. Qed.

Lemma substring_split (n : nat) (s : string) :
  (String.substring 0 n s +:+ String.substring n (String.length s - n) s)%string = s.
Proof.
  revert s. induction n as [| n IH]; intros s.
  - rewrite Nat.sub_0_r. destruct s as [| a s]; [reflexivity |].
    change (String a (String.substring 0 (String.length s) s) = String a s).
    f_equal. apply substring_whole.
  - destruct s as [| a s]; [reflexivity |].
    simpl. rewrite append_cons. f_equal. apply IH.
Qed.

(** X2. [extractTokenFromHeader] returns a token exactly for a header that
    consists of the seven characters ["Bearer "] followed by that token:
    the scheme is matched with its capital letter and a single space, and
    what follows is returned unchanged (the empty string included). *)
Theorem extractTokenFromHeader_bearer (h t : string) :
  extractTokenFromHeader (Some h) = Some t ↔ h = ("Bearer " +:+ t)%string.
Proof.
  unfold extractTokenFromHeader. split.
  - destruct (truthy h); simpl; [| discriminate].
    destruct (String.prefix "Bearer " h) eqn:Hp; simpl; [| discriminate].
    intros [= <-]. apply String.prefix_correct in Hp. simpl String.length in Hp.
    rewrite <- Hp. symmetry. apply (substring_split 7 h).
  - intros ->. rewrite !append_cons, append_nil. simpl.
    rewrite Nat.sub_0_r, substring_whole.
    repeat (destruct (ascii_dec _ _) as [_ | Hne]; [| contradiction]).
    destruct t; reflexivity.
Qed.

(** ** Authentication middleware *)

(** X3. [authenticate] decides on the stored account, not on what the token
    says: with a token that verifies, a subject that is INACTIVE, SUSPENDED
    or member of an inactive company is refused with a Forbidden error; an
    ACTIVE subject of an active company is let through, and [req.user]
    carries the role, status and company of its row, whatever role and
    status the token was issued with.  The stores are not written. *)
Theorem authenticate_decides_on_stored_account
    (K : Constants) (tm : TokensModule) (req : Request) (now : Z) (w : World)
    (token : Token) (d : Claims) (u : User) :
  extract_token (authorization req) = Some token →
  verifyAccessToken K tm now token = Returns d →
  user_by_id (p_id (payload d)) w = Some u →
  (gated w u →
   ∃ t, authenticate K tm req now w = (Throws t, w) ∧ thrown_with FORBIDDEN t)
  ∧ (∀ co, u_status u = ACTIVE → company_by_id (u_companyId u) w = Some co →
           isActive co = true →
           authenticate K tm req now w = (Returns (with_user (request_user u co) req), w)).
Proof.
  intros Hext Hver Hu.
  assert (Htr : token_truthy token = true).
  { destruct token; [| reflexivity]. discriminate Hver. }
  unfold authenticate. rewrite Hext, Htr. run. rewrite Hver. simpl. rewrite Hu. simpl.
  split.
  - intros [Hs | [Hs | (Hs & c & Hc & Hact)]]; rewrite Hs; simpl.
    + eexists; split; [reflexivity |]. eexists; split; reflexivity.
    + eexists; split; [reflexivity |]. eexists; split; reflexivity.
    + rewrite Hc, Hact. simpl. eexists; split; [reflexivity |]. eexists; split; reflexivity.
  - intros co Hs Hco Hact. rewrite Hs, Hco, Hact. reflexivity.
Qed.

Lemma authenticate_decides_on_stored_account_witness :
  ∃ t,
    authenticate Sample.constants Sample.tm_shared
      (mkRequest
         (Some (BearerSigned "s3cret"
                  (mkClaims (mkPayload "u2" "bob@acme.test" (Some ACCOUNTANT) (Some "c1")
                               (Some ACTIVE))
                     100 1000 "zirakbook-api" "zirakbook-client")))
         None ∅ ∅ ∅)
      200 Sample.world
    = (Throws t, Sample.world)
    ∧ thrown_with FORBIDDEN t.
Proof.
  eapply (authenticate_decides_on_stored_account Sample.constants Sample.tm_shared
            _ 200 Sample.world _ _ Sample.bob); [reflexivity | reflexivity | reflexivity |].
  right; left; reflexivity.
Defined.

(** X4. [optionalAuth] never throws and never writes; it attaches
    [req.user] exactly when [authenticate] would let the request through,
    with the same user, and otherwise hands the request on unchanged. *)
Theorem optionalAuth_agrees_with_authenticate
    (K : Constants) (tm : TokensModule) (req : Request) (now : Z) (w : World) :
  snd (optionalAuth K tm req now w) = w
  ∧ match fst (authenticate K tm req now w) with
    | Returns req' => fst (optionalAuth K tm req now w) = Returns req'
    | Throws _ => fst (optionalAuth K tm req now w) = Returns req
    end.
Proof.
  unfold optionalAuth, authenticate.
  destruct (extract_token (authorization req)) as [token |]; [| split; reflexivity].
  destruct (token_truthy token); simpl; [| split; reflexivity].
  run. destruct (verifyAccessToken K tm now token) as [d | t]; simpl; [| split; reflexivity].
  destruct (user_by_id (p_id (payload d)) w) as [u |]; simpl; [| split; reflexivity].
  destruct (company_by_id (u_companyId u) w) as [co |]; simpl.
  - destruct (u_status u); simpl; try (split; reflexivity).
    destruct (isActive co); simpl; split; reflexivity.
  - destruct (u_status u); simpl; split; reflexivity.
Qed.

(** X5. A request [authenticate] lets through carries the selected columns
    of an identity that exists, is ACTIVE and belongs to an active company:
    [verifyToken] on [req.user.id], as the verify route calls it behind
    [authenticate], answers true on the same stores. *)
Theorem authenticated_session_is_valid
    (K : Constants) (tm : TokensModule) (req req' : Request) (now : Z) (w w' : World) :
  authenticate K tm req now w = (Returns req', w') →
  w' = w
  ∧ ∃ u co,
      req' = with_user (request_user u co) req
      ∧ user_by_id (u_id u) w = Some u
      ∧ u_status u = ACTIVE
      ∧ company_by_id (u_companyId u) w = Some co ∧ isActive co = true
      ∧ verifyToken (u_id u) w = (Returns true, w).
Proof.
  unfold authenticate.
  destruct (extract_token (authorization req)) as [token |]; [| discriminate].
  destruct (token_truthy token); simpl; [| discriminate].
  run. destruct (verifyAccessToken K tm now token) as [d | t]; simpl; [| discriminate].
  destruct (user_by_id (p_id (payload d)) w) as [u |] eqn:Hu; simpl; [| discriminate].
  pose proof (user_by_id_id _ _ _ Hu) as Hid.
  destruct (u_status u) eqn:Hs; simpl; try discriminate.
  destruct (company_by_id (u_companyId u) w) as [co |] eqn:Hco; [| discriminate].
  destruct (isActive co) eqn:Hact; simpl; [| discriminate].
  intros [= <- <-]. split; [reflexivity |].
  exists u, co. rewrite Hid. repeat split; auto.
  unfold verifyToken. run. rewrite <- Hid, Hid, Hu. simpl. rewrite Hs, Hco, Hact. reflexivity.
Qed.

Lemma authenticated_session_is_valid_witness :
  ∃ req',
    authenticate Sample.constants Sample.tm_shared
      (mkRequest
         (Some (BearerSigned "s3cret"
                  (mkClaims (mkPayload "u1" "alice@acme.test" (Some VIEWER) (Some "c1")
                               (Some ACTIVE))
                     100 1000 "zirakbook-api" "zirakbook-client")))
         None ∅ ∅ ∅)
      200 Sample.world
    = (Returns req', Sample.world)
    ∧ verifyToken "u1" Sample.world = (Returns true, Sample.world).
Proof.
  destruct (authenticate Sample.constants Sample.tm_shared
              (mkRequest
                 (Some (BearerSigned "s3cret"
                          (mkClaims (mkPayload "u1" "alice@acme.test" (Some VIEWER) (Some "c1")
                                       (Some ACTIVE))
                             100 1000 "zirakbook-api" "zirakbook-client")))
                 None ∅ ∅ ∅)
              200 Sample.world) as [[req' | t] w'] eqn:Hrun;
    [| vm_compute in Hrun; discriminate Hrun].
  destruct (authenticated_session_is_valid _ _ _ _ _ _ _ Hrun)
    as (-> & u & co & _ & _ & _ & _ & _ & _).
  exists req'. split; reflexivity.
Defined.

(** X6. [requireOwnershipOrAdmin] lets a request through exactly when it is
    authenticated and either [req.user.id] is the id named by the route
    parameter (or, failing a non-empty one, by the body), or the role passes
    [requireRole(SUPERADMIN, COMPANY_ADMIN)]; it answers 401 without
    [req.user] and 403 otherwise.  [requireRole] with an empty list of roles
    lets nobody through. *)
Theorem requireOwnershipOrAdmin_cases (paramName : string) (req : Request) :
  (requireOwnershipOrAdmin paramName req = Returns tt ↔
   ∃ u, req_user req = Some u
        ∧ (Some (ru_id u) = js_or (req_params req !! paramName) (req_body req !! paramName)
           ∨ requireRole [SUPERADMIN; COMPANY_ADMIN] req = Returns tt))
  ∧ (req_user req = None → fails_with UNAUTHORIZED (requireOwnershipOrAdmin paramName req))
  ∧ (∀ u, req_user req = Some u → requireOwnershipOrAdmin paramName req ≠ Returns tt →
          fails_with FORBIDDEN (requireOwnershipOrAdmin paramName req))
  ∧ requireRole [] req ≠ Returns tt.
Proof.
  unfold requireOwnershipOrAdmin, requireRole.
  destruct (req_user req) as [u |]; simpl.
  - split; [| split; [discriminate | split]].
    + split.
      * intros H. exists u. split; [reflexivity |].
        destruct (decide (Some (ru_id u)
                          = js_or (req_params req !! paramName) (req_body req !! paramName)))
          as [Hown | Hown]; [left; exact Hown |].
        right. rewrite (bool_decide_eq_false_2 _ Hown) in H.
        destruct (bool_decide (ru_role u ∈ [SUPERADMIN; COMPANY_ADMIN]));
          [reflexivity | discriminate H].
      * intros (u' & [= <-] & [Hown | Hadm]).
        -- rewrite bool_decide_eq_true_2 by exact Hown. reflexivity.
        -- destruct (bool_decide (ru_role u ∈ [SUPERADMIN; COMPANY_ADMIN]));
             [| discriminate Hadm].
           simpl. rewrite andb_false_r. reflexivity.
    + intros u' _ Hne.
      destruct (negb _ && negb _); [| contradiction].
      eexists; split; [reflexivity |]. eexists; split; reflexivity.
    + discriminate.
  - split; [| split; [| split]].
    + split; [discriminate | intros (u & [=] & _)].
    + intros _. eexists; split; [reflexivity |]. eexists; split; reflexivity.
    + intros u [=].
    + discriminate.
Qed.

(** X7. Tenant isolation by [requireCompanyAccess]: the company id is taken
    from the route parameters, else the body, else the query, skipping empty
    values.  A request that names a company other than [req.user.companyId]
    is refused with a Forbidden error; one that names the user's company, or
    no company at all, passes; a non-empty route parameter decides alone,
    whatever body and query say. *)
Theorem requireCompanyAccess_isolation (paramName : string) (req : Request) (u : RequestUser) :
  req_user req = Some u →
  (∀ target, js_or (target_of_request paramName req) None = Some target →
     (target = ru_companyId u → requireCompanyAccess paramName req = Returns tt)
     ∧ (target ≠ ru_companyId u → fails_with FORBIDDEN (requireCompanyAccess paramName req)))
  ∧ (js_or (target_of_request paramName req) None = None →
     requireCompanyAccess paramName req = Returns tt)
  ∧ (∀ v, req_params req !! paramName = Some v → truthy v = true →
          js_or (target_of_request paramName req) None = Some v).
Proof.
  intros Hu. unfold requireCompanyAccess. rewrite Hu. split; [| split].
  - intros target ->. split.
    + intros ->. rewrite bool_decide_eq_true_2 by reflexivity. reflexivity.
    + intros Hne. rewrite bool_decide_eq_false_2 by congruence. simpl.
      eexists; split; [reflexivity |]. eexists; split; reflexivity.
  - intros ->. reflexivity.
  - intros v Hv Htr. unfold target_of_request. rewrite Hv. simpl. rewrite Htr. simpl.
    rewrite Htr. reflexivity.
Qed.

Lemma requireCompanyAccess_isolation_witness :
  fails_with FORBIDDEN
    (requireCompanyAccess "companyId"
       (mkRequest None (Some (request_user Sample.alice Sample.acme))
          {[ "companyId" := "c2" ]} {[ "companyId" := "c1" ]} ∅)).
Proof.
  destruct (requireCompanyAccess_isolation "companyId"
              (mkRequest None (Some (request_user Sample.alice Sample.acme))
                 {[ "companyId" := "c2" ]} {[ "companyId" := "c1" ]} ∅)
              (request_user Sample.alice Sample.acme) eq_refl) as (Htarget & _ & _).
  apply (Htarget "c2"); [reflexivity | discriminate].
Defined.

(** ** Permission gates *)

Lemma getUserPermissions_returns K uid now w :
  ∃ l w', getUserPermissions K uid now w = (Returns l, w').
Proof.
  unfold getUserPermissions. run.
  destruct (fst (getCache (CACHE_KEYS_USER_PERMISSIONS K uid) now w)); eauto.
Qed.

(** X8. For an authenticated request whose [req.user] carries the stored
    role, the middleware [requirePermission] and the utility
    [checkPermission] decide alike and leave the same stores: the request
    passes when the check answers true and is refused with a Forbidden error
    when it answers false. *)
Theorem requirePermission_agrees_with_checkPermission
    (K : Constants) (module_ action resource : string) (req : Request) (ru : RequestUser)
    (now : Z) (w : World) (u : User) :
  req_user req = Some ru → user_by_id (ru_id ru) w = Some u → ru_role ru = u_role u →
  ∃ b w',
    checkPermission K (ru_id ru) module_ action resource now w = (Returns b, w')
    ∧ if b then requirePermission K module_ action resource req now w = (Returns tt, w')
      else ∃ t, requirePermission K module_ action resource req now w = (Throws t, w')
                ∧ thrown_with FORBIDDEN t.
Proof.
  intros Hreq Hu Hrole. unfold checkPermission, requirePermission. run.
  rewrite Hreq, Hu, Hrole.
  case_bool_decide as Hsuper.
  - exists true, w. split; reflexivity.
  - destruct (getUserPermissions_returns K (ru_id ru) now w) as (l & w' & ->).
    exists (hasPermission l module_ action resource), w'. split; [reflexivity |].
    destruct (hasPermission l module_ action resource); simpl; [reflexivity |].
    eexists; split; [reflexivity |]. eexists; split; reflexivity.
Qed.

Lemma requirePermission_agrees_with_checkPermission_witness :
  ∃ b w',
    checkPermission Sample.constants "u1" "sales" "read" "invoices" 200 Sample.world_granted
    = (Returns b, w')
    ∧ if b
      then requirePermission Sample.constants "sales" "read" "invoices"
             (mkRequest None (Some (request_user Sample.alice Sample.acme)) ∅ ∅ ∅)
             200 Sample.world_granted
           = (Returns tt, w')
      else ∃ t, requirePermission Sample.constants "sales" "read" "invoices"
                  (mkRequest None (Some (request_user Sample.alice Sample.acme)) ∅ ∅ ∅)
                  200 Sample.world_granted
                = (Throws t, w')
                ∧ thrown_with FORBIDDEN t.
Proof.
  apply (requirePermission_agrees_with_checkPermission Sample.constants "sales" "read"
           "invoices" (mkRequest None (Some (request_user Sample.alice Sample.acme)) ∅ ∅ ∅)
           (request_user Sample.alice Sample.acme) 200 Sample.world_granted Sample.alice);
    reflexivity.
Defined.

(** X9. The two list gates on a request that is not a superadmin's: with an
    empty list [requireAnyPermission] refuses (Forbidden) and
    [requireAllPermissions] passes; with a single triple both pass exactly
    when [requirePermission] on that triple does. *)
Theorem list_gates_on_empty_and_single
    (K : Constants) (req : Request) (ru : RequestUser) (now : Z) (w : World) :
  req_user req = Some ru → ru_role ru ≠ SUPERADMIN →
  fails_with FORBIDDEN (fst (requireAnyPermission K [] req now w))
  ∧ fst (requireAllPermissions K [] req now w) = Returns tt
  ∧ ∀ p,
      (fst (requireAnyPermission K [p] req now w) = Returns tt ↔
       fst (requirePermission K (pt_module p) (pt_action p) (pt_resource p) req now w)
       = Returns tt)
      ∧ (fst (requireAllPermissions K [p] req now w) = Returns tt ↔
         fst (requirePermission K (pt_module p) (pt_action p) (pt_resource p) req now w)
         = Returns tt).
Proof.
  intros Hreq Hrole.
  unfold requireAnyPermission, requireAllPermissions, requirePermission. run.
  rewrite Hreq. rewrite bool_decide_eq_false_2 by exact Hrole.
  destruct (getUserPermissions_returns K (ru_id ru) now w) as (l & w' & ->). simpl.
  split; [eexists; split; [reflexivity |]; eexists; split; reflexivity |].
  split; [reflexivity |].
  intros p. unfold has_tuple. rewrite orb_false_r, andb_true_r.
  destruct (hasPermission l (pt_module p) (pt_action p) (pt_resource p)); simpl;
    split; split; intros H; first [reflexivity | discriminate H].
Qed.

Lemma list_gates_on_empty_and_single_witness :
  fails_with FORBIDDEN
    (fst (requireAnyPermission Sample.constants []
            (mkRequest None (Some (request_user Sample.alice Sample.acme)) ∅ ∅ ∅)
            200 Sample.world_granted))
  ∧ fst (requireAllPermissions Sample.constants []
           (mkRequest None (Some (request_user Sample.alice Sample.acme)) ∅ ∅ ∅)
           200 Sample.world_granted)
    = Returns tt.
Proof.
  destruct (list_gates_on_empty_and_single Sample.constants
              (mkRequest None (Some (request_user Sample.alice Sample.acme)) ∅ ∅ ∅)
              (request_user Sample.alice Sample.acme) 200 Sample.world_granted eq_refl
              ltac:(discriminate)) as (Hany & Hall & _).
  split; assumption.
Defined.

(** ** Cache helpers and the cached permission list *)

Lemma redis_healthy_cases w :
  redis_healthy w →
  redis_faults w = [] ∨ ∃ fs, redis_faults w = false :: fs ∧ Forall (fun b => b = false) fs.
Proof.
  unfold redis_healthy. destruct (redis_faults w) as [| b fs]; [auto |].
  intros H. apply Forall_cons in H as [-> H]. eauto.
Qed.

(** X10. Round trip through the cache helpers while Redis carries out its
    commands: a value written with a positive expiry is read back under its
    key until the expiry has passed and is gone from then on; writing under
    one key does not change what is read under another; and after
    [deleteCache] the key reads as absent. *)
Theorem cache_round_trip
    (key : string) (value : list PermTuple) (expiry now now' : Z) (w : World)
    (r : gmap string CacheEntry) :
  redis w = Some r → redis_healthy w → 0 < expiry →
  fst (setCache key value expiry now w) = true
  ∧ (now' < now + expiry →
     fst (getCache key now' (snd (setCache key value expiry now w))) = Some value)
  ∧ (now + expiry <= now' →
     fst (getCache key now' (snd (setCache key value expiry now w))) = None)
  ∧ (∀ key', key' ≠ key →
       fst (getCache key' now' (snd (setCache key value expiry now w)))
       = fst (getCache key' now' w))
  ∧ fst (getCache key now'
           (snd (deleteCache key (snd (setCache key value expiry now w))))) = None.
Proof.
  intros Hr Hh Hpos.
  destruct w as [us cs ps ups rd fs]. simpl in Hr. subst rd.
  assert (Hexp : bool_decide (expiry <= 0) = false) by (apply bool_decide_eq_false_2; lia).
  destruct (redis_healthy_cases _ Hh) as [Hfs | (fs1 & Hfs & Hh1)]; simpl in Hfs; subst fs.
  - unfold setCache, getCache, deleteCache, next_fault. simpl. rewrite Hexp. simpl.
    rewrite lookup_insert_eq. simpl.
    split; [reflexivity |].
    split; [intros; rewrite bool_decide_eq_true_2 by lia; reflexivity |].
    split; [intros; rewrite bool_decide_eq_false_2 by lia; reflexivity |].
    split; [intros key' Hne; rewrite lookup_insert_ne by congruence;
             destruct (r !! key') as [e |]; [destruct (bool_decide (now' < _)) |];
             reflexivity |].
    rewrite lookup_delete_eq. reflexivity.
  - unfold setCache, getCache, deleteCache, next_fault. simpl. rewrite Hexp. simpl.
    split; [reflexivity |].
    destruct fs1 as [| b2 fs2]; simpl.
    + rewrite lookup_insert_eq. simpl.
      split; [intros; rewrite bool_decide_eq_true_2 by lia; reflexivity |].
      split; [intros; rewrite bool_decide_eq_false_2 by lia; reflexivity |].
      split; [intros key' Hne; rewrite lookup_insert_ne by congruence;
             destruct (r !! key') as [e |]; [destruct (bool_decide (now' < _)) |];
             reflexivity |].
      rewrite lookup_delete_eq. reflexivity.
    + apply Forall_cons in Hh1 as [-> Hh2]. simpl.
      rewrite lookup_insert_eq. simpl.
      split; [intros; rewrite bool_decide_eq_true_2 by lia; reflexivity |].
      split; [intros; rewrite bool_decide_eq_false_2 by lia; reflexivity |].
      split; [intros key' Hne; rewrite lookup_insert_ne by congruence;
             destruct (r !! key') as [e |]; [destruct (bool_decide (now' < _)) |];
             reflexivity |].
      destruct fs2 as [| b3 fs3]; simpl; [rewrite lookup_delete_eq; reflexivity |].
      apply Forall_cons in Hh2 as [-> _]. simpl. rewrite lookup_delete_eq. reflexivity.
Qed.

Lemma cache_round_trip_witness :
  fst (setCache "k" [tuple_of Sample.read_invoices] 1800 100 Sample.world) = true
  ∧ fst (getCache "k" 1899
           (snd (setCache "k" [tuple_of Sample.read_invoices] 1800 100 Sample.world)))
    = Some [tuple_of Sample.read_invoices].
Proof.
  destruct (cache_round_trip "k" [tuple_of Sample.read_invoices] 1800 100 1899 Sample.world ∅
              eq_refl) as (Hset & Hget & _).
  - constructor.
  - lia.
  - split; [exact Hset | apply Hget; lia].
Defined.

(** X11. What [getUserPermissions] of the middleware does with an entry
    under the identity's key: an entry whose expiry has passed is never
    served, the answer is read from the assignment table; an entry that has
    not expired is served as it is when the [GET] is carried out, without
    reading the table and without writing the cache. *)
Theorem cached_permissions_until_expiry
    (K : Constants) (uid : string) (now : Z) (w : World)
    (r : gmap string CacheEntry) (e : CacheEntry) :
  redis w = Some r → r !! CACHE_KEYS_USER_PERMISSIONS K uid = Some e →
  (ce_expiresAt e <= now →
   fst (getUserPermissions K uid now w) = Returns (granted_tuples uid w))
  ∧ (now < ce_expiresAt e → head (redis_faults w) ≠ Some true →
     getUserPermissions K uid now w = (Returns (ce_value e), snd (next_fault w)))
  ∧ (head (redis_faults w) = Some true →
     fst (getUserPermissions K uid now w) = Returns (granted_tuples uid w)).
Proof.
  intros Hr He.
  destruct w as [us cs ps ups rd fs]. simpl in Hr. subst rd.
  unfold getUserPermissions, getCache, setCache, next_fault. run.
  split; [| split].
  - intros Hexp.
    destruct fs as [| [] fs]; simpl; rewrite ?He; simpl;
      rewrite ?bool_decide_eq_false_2 by lia; simpl;
      try (destruct fs as [| [] ?]; simpl);
      try destruct (bool_decide (CACHE_TTL_MEDIUM K <= 0)); reflexivity.
  - intros Hlt Hans.
    destruct fs as [| [] fs]; simpl in *; try congruence;
      rewrite He; simpl; rewrite bool_decide_eq_true_2 by lia; reflexivity.
  - intros Hrej. destruct fs as [| [] fs]; simpl in *; try discriminate.
    destruct fs as [| [] ?]; simpl;
      try destruct (bool_decide (CACHE_TTL_MEDIUM K <= 0)); reflexivity.
Qed.

Lemma cached_permissions_until_expiry_witness :
  fst (getUserPermissions Sample.constants "u1" 5000 Sample.world_granted)
  = Returns (granted_tuples "u1" Sample.world_granted)
  ∧ getUserPermissions Sample.constants "u1" 4999 Sample.world_granted
    = (Returns [tuple_of Sample.read_invoices], snd (next_fault Sample.world_granted)).
Proof.
  destruct (cached_permissions_until_expiry Sample.constants "u1" 5000 Sample.world_granted
              {[ permissions_key "u1" := mkCacheEntry [tuple_of Sample.read_invoices] 5000 ]}
              (mkCacheEntry [tuple_of Sample.read_invoices] 5000) eq_refl eq_refl)
    as (Hexpired & _ & _).
  destruct (cached_permissions_until_expiry Sample.constants "u1" 4999 Sample.world_granted
              {[ permissions_key "u1" := mkCacheEntry [tuple_of Sample.read_invoices] 5000 ]}
              (mkCacheEntry [tuple_of Sample.read_invoices] 5000) eq_refl eq_refl)
    as (_ & Hfresh & _).
  split.
  - apply Hexpired. simpl. lia.
  - apply Hfresh; [simpl; lia | discriminate].
Defined.

(** X12. On a miss (no entry under the key, or an expired one) with Redis
    carrying out its commands and a positive TTL, [getUserPermissions]
    answers from the assignment table and leaves under the key exactly that
    answer, due to expire [CACHE_TTL.MEDIUM] seconds later. *)
Theorem permissions_cached_on_miss
    (K : Constants) (uid : string) (now : Z) (w : World) (r : gmap string CacheEntry) :
  redis w = Some r → redis_healthy w → 0 < CACHE_TTL_MEDIUM K →
  (r !! CACHE_KEYS_USER_PERMISSIONS K uid = None
   ∨ ∃ e, r !! CACHE_KEYS_USER_PERMISSIONS K uid = Some e ∧ ce_expiresAt e <= now) →
  fst (getUserPermissions K uid now w) = Returns (granted_tuples uid w)
  ∧ cached (CACHE_KEYS_USER_PERMISSIONS K uid) (snd (getUserPermissions K uid now w))
    = Some (mkCacheEntry (granted_tuples uid w) (now + CACHE_TTL_MEDIUM K)).
Proof.
  intros Hr Hh Hpos Hmiss.
  destruct w as [us cs ps ups rd fs]. simpl in Hr. subst rd.
  assert (Hexp : bool_decide (CACHE_TTL_MEDIUM K <= 0) = false)
    by (apply bool_decide_eq_false_2; lia).
  assert (Hget : match r !! CACHE_KEYS_USER_PERMISSIONS K uid with
                 | Some e => if bool_decide (now < ce_expiresAt e)
                             then Some (ce_value e) else None
                 | None => None
                 end = (None : option (list PermTuple))).
  { destruct Hmiss as [-> | (e & -> & He)]; [reflexivity |].
    rewrite bool_decide_eq_false_2 by lia. reflexivity. }
  unfold getUserPermissions, getCache, setCache, next_fault, cached. run.
  destruct (redis_healthy_cases _ Hh) as [Hfs | (fs1 & Hfs & Hh1)]; simpl in Hfs; subst fs; simpl.
  - destruct (r !! CACHE_KEYS_USER_PERMISSIONS K uid) as [e |]; simpl in *.
    + destruct (bool_decide (now < ce_expiresAt e)); [discriminate Hget |].
      simpl. rewrite Hexp. simpl. rewrite lookup_insert_eq. auto.
    + rewrite Hexp. simpl. rewrite lookup_insert_eq. auto.
  - destruct (r !! CACHE_KEYS_USER_PERMISSIONS K uid) as [e |]; simpl in *.
    + destruct (bool_decide (now < ce_expiresAt e)); [discriminate Hget |]. simpl.
      destruct fs1 as [| b fs2]; simpl; [rewrite Hexp; simpl; rewrite lookup_insert_eq; auto |].
      apply Forall_cons in Hh1 as [-> _]. simpl. rewrite Hexp. simpl.
      rewrite lookup_insert_eq. auto.
    + destruct fs1 as [| b fs2]; simpl; [rewrite Hexp; simpl; rewrite lookup_insert_eq; auto |].
      apply Forall_cons in Hh1 as [-> _]. simpl. rewrite Hexp. simpl.
      rewrite lookup_insert_eq. auto.
Qed.

Lemma permissions_cached_on_miss_witness :
  fst (getUserPermissions Sample.constants "u1" 200 Sample.world)
  = Returns (granted_tuples "u1" Sample.world)
  ∧ cached (CACHE_KEYS_USER_PERMISSIONS Sample.constants "u1")
      (snd (getUserPermissions Sample.constants "u1" 200 Sample.world))
    = Some (mkCacheEntry (granted_tuples "u1" Sample.world)
              (200 + CACHE_TTL_MEDIUM Sample.constants)).
Proof.
  apply (permissions_cached_on_miss Sample.constants "u1" 200 Sample.world ∅ eq_refl).
  - constructor.
  - simpl. lia.
  - left. reflexivity.
Defined.

(** X13. Without a Redis client the helpers do nothing ([setCache] and
    [deleteCache] answer false, [getCache] null) and the permission check of
    an identity that is not a superadmin reads the assignment table every
    time and writes nothing. *)
Theorem no_redis_client_reads_the_store
    (K : Constants) (w : World) (uid : string) (u : User) :
  redis w = None →
  (∀ key value expiry now, setCache key value expiry now w = (false, w))
  ∧ (∀ key now, getCache key now w = (None, w))
  ∧ (∀ key, deleteCache key w = (false, w))
  ∧ (user_by_id uid w = Some u → u_role u ≠ SUPERADMIN →
     ∀ module_ action resource now,
       checkPermission K uid module_ action resource now w
       = (Returns (hasPermission (granted_tuples uid w) module_ action resource), w)).
Proof.
  intros Hr. unfold setCache, getCache, deleteCache. rewrite Hr.
  repeat split; try reflexivity.
  intros Hu Hrole module_ action resource now.
  unfold checkPermission, getUserPermissions, getCache, setCache. run.
  rewrite Hu. rewrite bool_decide_eq_false_2 by exact Hrole. rewrite Hr. simpl.
  rewrite Hr. reflexivity.
Qed.

Lemma no_redis_client_reads_the_store_witness :
  deleteCache "k" (set_redis None Sample.world_granted) = (false, set_redis None Sample.world_granted)
  ∧ checkPermission Sample.constants "u1" "sales" "read" "invoices" 200
      (set_redis None Sample.world_granted)
    = (Returns true, set_redis None Sample.world_granted).
Proof.
  destruct (no_redis_client_reads_the_store Sample.constants
              (set_redis None Sample.world_granted) "u1" Sample.alice eq_refl)
    as (_ & _ & Hdel & Hcheck).
  split; [apply Hdel |]. apply (Hcheck eq_refl ltac:(discriminate)).
Defined.

(** ** Permission catalog *)

Lemma same_triple_tuple m a r p :
  same_triple m a r p = true ↔ tuple_of p = mkPermTuple m a r.
Proof.
  unfold same_triple, tuple_of. rewrite !andb_true_iff, !bool_decide_eq_true.
  split; [intros [[-> ->] ->]; reflexivity | intros [= -> -> ->]; auto].
Qed.

Lemma permission_by_triple_none m a r w :
  permission_by_triple m a r w = None →
  mkPermTuple m a r ∉ (tuple_of <$> permissions w).
Proof.
  unfold permission_by_triple. intros Hnone Hin.
  apply list_elem_of_fmap in Hin as (q & Hq & Hin).
  apply list_elem_of_In in Hin.
  pose proof (find_none _ _ Hnone q Hin) as Hf.
  assert (Ht : same_triple m a r q = true) by (apply same_triple_tuple; auto).
  congruence.
Qed.

Lemma permission_by_triple_some m a r w q :
  permission_by_triple m a r w = Some q →
  q ∈ permissions w ∧ tuple_of q = mkPermTuple m a r.
Proof.
  unfold permission_by_triple. intros H. apply find_some in H as [Hin Ht].
  split; [by apply list_elem_of_In | by apply same_triple_tuple].
Qed.

(** What [createPermission] does, case by case. *)
Lemma createPermission_cases data newId w :
  (∃ q, q ∈ permissions w
        ∧ tuple_of q = mkPermTuple (pd_module data) (pd_action data) (pd_resource data)
        ∧ PermissionService.createPermission data newId w
          = (Throws (Api (ApiErr.conflict "Permission with this combination already exists")), w))
  ∨ ((mkPermTuple (pd_module data) (pd_action data) (pd_resource data)
        ∉ (tuple_of <$> permissions w))
     ∧ ((newId ∈ (perm_id <$> permissions w)
         ∧ PermissionService.createPermission data newId w
           = (Throws (PrismaError "P2002"), w))
        ∨ ((newId ∉ (perm_id <$> permissions w))
           ∧ PermissionService.createPermission data newId w
             = (Returns (mkPermission newId (pd_module data) (pd_action data)
                           (pd_resource data) (pd_description data)),
                set_permissions
                  (permissions w
                   ++ [mkPermission newId (pd_module data) (pd_action data)
                         (pd_resource data) (pd_description data)]) w)))).
Proof.
  unfold PermissionService.createPermission. run.
  destruct (permission_by_triple _ _ _ w) as [q |] eqn:Hq.
  - left. apply permission_by_triple_some in Hq as [Hin Ht]. eauto.
  - right. pose proof (permission_by_triple_none _ _ _ _ Hq) as Hfresh.
    split; [exact Hfresh |].
    unfold prisma_permission_create. simpl.
    destruct (existsb _ (permissions w)) eqn:Hex.
    + left. split; [| reflexivity].
      apply existsb_exists in Hex as (q & Hin & Hor).
      apply orb_true_iff in Hor as [Hid | Ht].
      * apply bool_decide_eq_true in Hid. apply list_elem_of_fmap.
        exists q. split; [auto | by apply list_elem_of_In].
      * exfalso. apply Hfresh. apply list_elem_of_fmap. exists q.
        split; [symmetry; by apply same_triple_tuple | by apply list_elem_of_In].
    + right. split; [| reflexivity].
      intros Hin. apply list_elem_of_fmap in Hin as (q & Hid & Hin).
      apply list_elem_of_In in Hin.
      assert (Hq' : existsb
                      (fun q => bool_decide (perm_id q = newId)
                                || same_triple (pd_module data) (pd_action data)
                                     (pd_resource data) q) (permissions w) = true).
      { apply existsb_exists. exists q. split; [exact Hin |].
        rewrite bool_decide_eq_true_2 by auto. reflexivity. }
      simpl in Hex. congruence.
Qed.

Lemma catalog_wf_snoc w p :
  catalog_wf w → perm_id p ∉ (perm_id <$> permissions w) →
  tuple_of p ∉ (tuple_of <$> permissions w) →
  catalog_wf (set_permissions (permissions w ++ [p]) w).
Proof.
  unfold catalog_wf. simpl. intros [Hids Hts] Hid Ht.
  rewrite !fmap_app. simpl. split; apply NoDup_app.
  - split; [exact Hids |]. split; [| apply NoDup_singleton].
    intros x Hx Hx'. apply list_elem_of_singleton in Hx'. subst x. contradiction.
  - split; [exact Hts |]. split; [| apply NoDup_singleton].
    intros x Hx Hx'. apply list_elem_of_singleton in Hx'. subst x. contradiction.
Qed.

(** X14. [createPermission] keeps the catalog well formed (ids and triples
    pairwise different): a triple already in the catalog is answered with
    the 409 conflict error; a throw leaves the stores as they were; a
    success appends exactly the new permission, under the given id and with
    the given triple and description. *)
Theorem createPermission_keeps_catalog
    (data : PermissionData) (newId : string) (w : World) :
  catalog_wf w →
  (∀ q, q ∈ permissions w →
        tuple_of q = mkPermTuple (pd_module data) (pd_action data) (pd_resource data) →
        PermissionService.createPermission data newId w
        = (Throws (Api (ApiErr.conflict "Permission with this combination already exists")), w))
  ∧ (∀ t w', PermissionService.createPermission data newId w = (Throws t, w') → w' = w)
  ∧ (∀ p w', PermissionService.createPermission data newId w = (Returns p, w') →
       p = mkPermission newId (pd_module data) (pd_action data) (pd_resource data)
             (pd_description data)
       ∧ permissions w' = permissions w ++ [p]
       ∧ users w' = users w ∧ userPermissions w' = userPermissions w
       ∧ catalog_wf w').
Proof.
  intros Hwf.
  destruct (createPermission_cases data newId w)
    as [(q & Hq & Ht & Hrun) | (Hfresh & [(Hid & Hrun) | (Hid & Hrun)])]; rewrite Hrun.
  - split; [auto |]. split; [intros t w' [= _ <-]; reflexivity | discriminate].
  - split; [| split; [intros t w' [= _ <-]; reflexivity | discriminate]].
    intros q Hq Ht. exfalso. apply Hfresh. apply list_elem_of_fmap. eauto.
  - split; [| split; [discriminate |]].
    + intros q Hq Ht. exfalso. apply Hfresh. apply list_elem_of_fmap. eauto.
    + intros p w' [= <- <-]. repeat split; auto.
      * apply catalog_wf_snoc; auto.
      * apply catalog_wf_snoc; auto.
Qed.

Lemma createPermission_keeps_catalog_witness :
  PermissionService.createPermission
    (mkPermissionData "sales" "read" "invoices" "again") "p3" Sample.world
  = (Throws (Api (ApiErr.conflict "Permission with this combination already exists")),
     Sample.world).
Proof.
  assert (Hwf : catalog_wf Sample.world).
  { split; simpl; repeat (apply NoDup_cons; split; [| ]);
      try apply NoDup_nil_2; intros Hin; not_listed Hin. }
  destruct (createPermission_keeps_catalog
              (mkPermissionData "sales" "read" "invoices" "again") "p3" Sample.world Hwf)
    as (Hdup & _).
  apply (Hdup Sample.read_invoices); [| reflexivity].
  apply elem_of_cons. left. reflexivity.
Defined.

Lemma bulk_loop_returns items :
  ∀ c s w c' s' w',
    catalog_wf w →
    PermissionService.bulk_loop items c s w = (Returns (c', s'), w') →
    ∃ c1 s1,
      c' = c ++ c1 ∧ s' = s ++ s1
      ∧ (length c1 + length s1 = length items)%nat
      ∧ permissions w' = permissions w ++ c1
      ∧ users w' = users w ∧ userPermissions w' = userPermissions w
      ∧ catalog_wf w'
      ∧ ∀ d, d ∈ s1 →
             mkPermTuple (pd_module d) (pd_action d) (pd_resource d)
             ∈ (tuple_of <$> permissions w').
Proof.
  induction items as [| [d newId] rest IH]; intros c s w c' s' w' Hwf Hrun.
  - injection Hrun as <- <- <-. exists [], [].
    rewrite !app_nil_r. split_and!; auto.
    intros d Hd. apply elem_of_nil in Hd. contradiction.
  - simpl in Hrun.
    destruct (createPermission_cases d newId w)
      as [(q & Hq & Ht & Hc) | (Hfresh & [(Hid & Hc) | (Hid & Hc)])];
      rewrite Hc in Hrun; simpl in Hrun.
    + apply IH in Hrun as (c1 & s1 & -> & -> & Hlen & Hps & Hus & Hups & Hwf' & Hsk); auto.
      exists c1, (d :: s1). rewrite <- app_assoc. simpl.
      split_and!; auto; [lia |].
      intros d' Hd'. apply elem_of_cons in Hd' as [-> | Hd']; [| auto].
      rewrite Hps, fmap_app. apply elem_of_app. left.
      apply list_elem_of_fmap. eauto.
    + discriminate Hrun.
    + apply IH in Hrun as (c1 & s1 & -> & -> & Hlen & Hps & Hus & Hups & Hwf' & Hsk).
      * eexists (_ :: c1), s1. rewrite <- app_assoc. simpl.
        split_and!; auto; try (simpl; lia).
        rewrite Hps. simpl. rewrite <- app_assoc. reflexivity.
      * apply catalog_wf_snoc; auto.
Qed.

(** X15. [bulkCreatePermissions] accounts for every item when it returns:
    [total] is the number of items and equals created plus skipped; the
    catalog grows by the created permissions, in order, and stays well
    formed (so an item repeating a triple of the catalog or of an earlier
    item is skipped, not created twice); every skipped item has its triple
    in the catalog. *)
Theorem bulkCreatePermissions_accounts_for_every_item
    (items : list (PermissionData * string)) (w w' : World) (res : BulkResult) :
  catalog_wf w →
  PermissionService.bulkCreatePermissions items w = (Returns res, w') →
  total res = length items
  ∧ (length (created res) + length (skipped res) = total res)%nat
  ∧ permissions w' = permissions w ++ created res
  ∧ catalog_wf w'
  ∧ ∀ d, d ∈ skipped res →
         mkPermTuple (pd_module d) (pd_action d) (pd_resource d)
         ∈ (tuple_of <$> permissions w').
Proof.
  intros Hwf. unfold PermissionService.bulkCreatePermissions. run.
  destruct (PermissionService.bulk_loop items [] [] w) as [[[c' s'] | t] w1] eqn:Hloop;
    [| discriminate].
  intros [= <- <-]. simpl.
  apply bulk_loop_returns in Hloop as (c1 & s1 & -> & -> & Hlen & Hps & _ & _ & Hwf' & Hsk);
    auto.
Qed.

Lemma bulkCreatePermissions_accounts_for_every_item_witness :
  ∃ res w',
    PermissionService.bulkCreatePermissions
      [ (mkPermissionData "sales" "read" "invoices" "again", "p3");
        (mkPermissionData "ledger" "read" "journals" "Read journals", "p4");
        (mkPermissionData "ledger" "read" "journals" "twice", "p5") ]
      Sample.world
    = (Returns res, w')
    ∧ total res = 3%nat
    ∧ (length (created res) + length (skipped res) = total res)%nat.
Proof.
  assert (Hwf : catalog_wf Sample.world).
  { split; simpl; repeat (apply NoDup_cons; split; [| ]);
      try apply NoDup_nil_2; intros Hin; not_listed Hin. }
  destruct (PermissionService.bulkCreatePermissions
              [ (mkPermissionData "sales" "read" "invoices" "again", "p3");
                (mkPermissionData "ledger" "read" "journals" "Read journals", "p4");
                (mkPermissionData "ledger" "read" "journals" "twice", "p5") ]
              Sample.world) as [[res | t] w'] eqn:Hrun;
    [| vm_compute in Hrun; discriminate Hrun].
  exists res, w'. split; [reflexivity |].
  destruct (bulkCreatePermissions_accounts_for_every_item _ _ _ _ Hwf Hrun)
    as (Htotal & Hsum & _).
  split; [exact Htotal | exact Hsum].
Defined.

Example bulk_skips_repeated_triples :
  (fun r => (perm_id <$> created r, pd_description <$> skipped r))
    <$> match fst (PermissionService.bulkCreatePermissions
                     [ (mkPermissionData "sales" "read" "invoices" "again", "p3");
                       (mkPermissionData "ledger" "read" "journals" "Read journals", "p4");
                       (mkPermissionData "ledger" "read" "journals" "twice", "p5") ]
                     Sample.world) with
        | Returns r => Some r
        | Throws _ => None
        end
  = Some (["p4"], ["again"; "twice"]).
Proof. reflexivity. Qed.

(** ** Assignments *)

Lemma assignPermissionsToUser_returns_list uid ids by_ now w res w1 :
  assignPermissionsToUser uid ids by_ now w = (Returns res, w1) →
  ∃ u, user_by_id uid w = Some u ∧ u_role u ≠ SUPERADMIN
       ∧ length (filter (fun p => perm_id p ∈ ids) (permissions w)) = length ids
       ∧ assignedCount res = length ids
       ∧ w1 = snd (deleteCache (permissions_key uid)
                     (set_userPermissions
                        (foldl (upsert_userPermission uid by_ now) (userPermissions w) ids) w)).
Proof.
  unfold assignPermissionsToUser. run.
  destruct (user_by_id uid w) as [u |]; [| discriminate].
  case_bool_decide as Hrole; simpl; [discriminate |].
  case_bool_decide as Hlen; simpl; [| discriminate].
  intros [= <- <-]. exists u. auto.
Qed.

(** With pairwise different ids in the catalog, as many catalog entries as
    requested ids means every requested id is there, once. *)
Lemma all_ids_found (ps : list Permission) (ids : list string) :
  NoDup (perm_id <$> ps) →
  length (filter (fun p => perm_id p ∈ ids) ps) = length ids →
  NoDup ids ∧ ∀ i, i ∈ ids → ∃ p, p ∈ ps ∧ perm_id p = i.
Proof.
  intros Hnd Hlen.
  set (found := perm_id <$> filter (fun p => perm_id p ∈ ids) ps).
  assert (Hfnd : NoDup found).
  { eapply sublist_NoDup; [exact Hnd |]. apply fmap_sublist, sublist_filter. }
  assert (Hsub : ∀ x, x ∈ found → x ∈ ids).
  { intros x Hx. apply list_elem_of_fmap in Hx as (p & -> & Hp).
    apply list_elem_of_filter in Hp as [Hp _]. exact Hp. }
  assert (Hperm : found ≡ₚ ids).
  { apply submseteq_length_Permutation; [apply NoDup_submseteq; auto |].
    unfold found. rewrite length_fmap. lia. }
  split.
  - rewrite <- Hperm. exact Hfnd.
  - intros i Hi. rewrite <- Hperm in Hi.
    apply list_elem_of_fmap in Hi as (p & -> & Hp).
    apply list_elem_of_filter in Hp as [_ Hp]. eauto.
Qed.

Lemma upsert_userPermission_keeps uid by_ now rows i j :
  (∃ up, up ∈ rows ∧ up_userId up = uid ∧ up_permissionId up = j ∧ granted up = true) →
  ∃ up, up ∈ upsert_userPermission uid by_ now rows i
        ∧ up_userId up = uid ∧ up_permissionId up = j ∧ granted up = true.
Proof.
  intros (up & Hin & Hu & Hp & Hg). unfold upsert_userPermission.
  destruct (existsb (same_assignment uid i) rows).
  - destruct (same_assignment uid i up) eqn:Hsame.
    + exists (mkUserPermission (up_userId up) (up_permissionId up) true now by_).
      split; [| auto].
      apply list_elem_of_In, in_map_iff. exists up. rewrite Hsame.
      split; [reflexivity | by apply list_elem_of_In].
    + exists up. split; [| auto].
      apply list_elem_of_In, in_map_iff. exists up. rewrite Hsame.
      split; [reflexivity | by apply list_elem_of_In].
  - exists up. split; [| auto]. apply elem_of_app. left. exact Hin.
Qed.

Lemma upsert_userPermission_refers uid by_ now rows i up :
  up ∈ upsert_userPermission uid by_ now rows i →
  up_permissionId up = i ∨ ∃ up0, up0 ∈ rows ∧ up_permissionId up0 = up_permissionId up.
Proof.
  unfold upsert_userPermission. destruct (existsb (same_assignment uid i) rows).
  - intros Hin. apply list_elem_of_In, in_map_iff in Hin as (x & Hx & Hin).
    right. exists x. split; [by apply list_elem_of_In |].
    destruct (same_assignment uid i x); subst up; reflexivity.
  - intros Hin. apply elem_of_app in Hin as [Hin | Hin]; [right; eauto |].
    apply list_elem_of_singleton in Hin. subst up. left. reflexivity.
Qed.

Lemma foldl_upsert_grants uid by_ now ids :
  ∀ rows i, i ∈ ids →
    ∃ up, up ∈ foldl (upsert_userPermission uid by_ now) rows ids
          ∧ up_userId up = uid ∧ up_permissionId up = i ∧ granted up = true.
Proof.
  induction ids as [| j ids IH] using rev_ind; intros rows i Hi.
  - apply elem_of_nil in Hi. contradiction.
  - rewrite foldl_app. simpl. apply elem_of_app in Hi as [Hi | Hi].
    + apply upsert_userPermission_keeps. apply IH. exact Hi.
    + apply list_elem_of_singleton in Hi. subst j. apply upsert_userPermission_grants.
Qed.

Lemma foldl_upsert_refers uid by_ now ids :
  ∀ rows up, up ∈ foldl (upsert_userPermission uid by_ now) rows ids →
    up_permissionId up ∈ ids ∨ ∃ up0, up0 ∈ rows ∧ up_permissionId up0 = up_permissionId up.
Proof.
  induction ids as [| j ids IH] using rev_ind; intros rows up Hin.
  - right. eauto.
  - rewrite foldl_app in Hin. simpl in Hin.
    apply upsert_userPermission_refers in Hin as [-> | (up0 & Hin & Heq)].
    + left. apply elem_of_app. right. by apply list_elem_of_singleton.
    + apply IH in Hin as [Hin | (up1 & Hin & Heq')].
      * left. rewrite <- Heq. apply elem_of_app. left. exact Hin.
      * right. exists up1. split; [exact Hin | congruence].
Qed.

(** X16. With pairwise different ids in the catalog,
    [assignPermissionsToUser] returns only when every requested id names a
    permission of the catalog and no id is requested twice; every requested
    permission is then assigned and granted to the user, and [assignedCount]
    is the number of requested ids. *)
Theorem assignment_needs_existing_distinct_ids
    (uid : string) (ids : list string) (by_ : string) (now : Z) (w w' : World)
    (res : AssignResult) :
  NoDup (perm_id <$> permissions w) →
  assignPermissionsToUser uid ids by_ now w = (Returns res, w') →
  NoDup ids
  ∧ (∀ i, i ∈ ids → ∃ p, p ∈ permissions w ∧ perm_id p = i)
  ∧ assignedCount res = length ids
  ∧ (∀ i, i ∈ ids →
       ∃ up, up ∈ userPermissions w'
             ∧ up_userId up = uid ∧ up_permissionId up = i ∧ granted up = true).
Proof.
  intros Hnd Hrun.
  apply assignPermissionsToUser_returns_list in Hrun as (u & _ & _ & Hlen & Hcount & ->).
  destruct (all_ids_found _ _ Hnd Hlen) as [Hids Hall].
  split; [exact Hids |]. split; [exact Hall |]. split; [exact Hcount |].
  intros i Hi.
  destruct (deleteCache_tables (permissions_key uid)
              (set_userPermissions
                 (foldl (upsert_userPermission uid by_ now) (userPermissions w) ids) w))
    as (_ & _ & _ & ->).
  simpl. apply foldl_upsert_grants. exact Hi.
Qed.

Lemma assignment_needs_existing_distinct_ids_witness :
  ∃ res w',
    assignPermissionsToUser "u1" ["p1"; "p2"] "u0" 150 Sample.world = (Returns res, w')
    ∧ assignedCount res = 2%nat
    ∧ ∀ i, i ∈ ["p1"; "p2"] →
           ∃ up, up ∈ userPermissions w'
                 ∧ up_userId up = "u1" ∧ up_permissionId up = i ∧ granted up = true.
Proof.
  assert (Hnd : NoDup (perm_id <$> permissions Sample.world)).
  { simpl. repeat (apply NoDup_cons; split; [| ]);
      try apply NoDup_nil_2; intros Hin; not_listed Hin. }
  destruct (assignPermissionsToUser "u1" ["p1"; "p2"] "u0" 150 Sample.world)
    as [[res | t] w'] eqn:Hrun; [| vm_compute in Hrun; discriminate Hrun].
  exists res, w'. split; [reflexivity |].
  destruct (assignment_needs_existing_distinct_ids _ _ _ _ _ _ _ Hnd Hrun)
    as (_ & _ & Hcount & Hrows).
  split; [exact Hcount | exact Hrows].
Defined.

(** A repeated id and an unknown id are both turned down. *)
Example repeated_id_is_refused :
  assignPermissionsToUser "u1" ["p1"; "p1"] "u0" 150 Sample.world
  = (Throws (Api (ApiErr.badRequest "One or more permission IDs are invalid")), Sample.world).
Proof. reflexivity. Qed.

Lemma deletePermission_cases pid w :
  (permission_by_id pid w = None
   ∧ PermissionService.deletePermission pid w
     = (Throws (Api (ApiErr.notFound "Permission not found")), w))
  ∨ ((∃ p, permission_by_id pid w = Some p)
     ∧ (∃ up, up ∈ userPermissions w ∧ up_permissionId up = pid)
     ∧ PermissionService.deletePermission pid w
       = (Throws (Api (ApiErr.badRequest
                         "Cannot delete permission that is assigned to users. Remove assignments first.")),
          w))
  ∨ ((∃ p, permission_by_id pid w = Some p)
     ∧ (∀ up, up ∈ userPermissions w → up_permissionId up ≠ pid)
     ∧ PermissionService.deletePermission pid w
       = (Returns tt,
          set_permissions (filter (fun p => perm_id p ≠ pid) (permissions w)) w)).
Proof.
  unfold PermissionService.deletePermission. run.
  destruct (permission_by_id pid w) as [p |]; [| left; auto].
  right.
  destruct (filter (fun up => up_permissionId up = pid) (userPermissions w))
    as [| up rest] eqn:Hf; simpl.
  - right. split; [eauto |]. split; [| reflexivity].
    intros up Hin Hp.
    assert (Hup : up ∈ filter (fun up => up_permissionId up = pid) (userPermissions w))
      by (apply list_elem_of_filter; auto).
    rewrite Hf in Hup. apply elem_of_nil in Hup. contradiction.
  - left. split; [eauto |]. split; [| reflexivity].
    assert (Hup : up ∈ filter (fun up => up_permissionId up = pid) (userPermissions w))
      by (rewrite Hf; constructor).
    apply list_elem_of_filter in Hup as [Hp Hin]. eauto.
Qed.

(** X17. The assignments keep referring to the catalog.  If every
    assignment names a permission of a catalog with pairwise different ids,
    this still holds after a successful [assignPermissionsToUser],
    [revokePermissionsFromUser] or [deletePermission]; in particular
    [deletePermission] refuses (bad request, nothing written) to delete a
    permission that some user is assigned, and a deleted permission is gone
    from the catalog. *)
Theorem assignments_keep_referring_to_catalog (w : World) :
  assignments_refer_to_catalog w → NoDup (perm_id <$> permissions w) →
  (∀ uid ids by_ now res w',
     assignPermissionsToUser uid ids by_ now w = (Returns res, w') →
     assignments_refer_to_catalog w')
  ∧ (∀ uid ids res w',
       revokePermissionsFromUser uid ids w = (Returns res, w') →
       assignments_refer_to_catalog w')
  ∧ (∀ pid w',
       PermissionService.deletePermission pid w = (Returns tt, w') →
       assignments_refer_to_catalog w' ∧ permission_by_id pid w' = None)
  ∧ (∀ pid up p,
       up ∈ userPermissions w → up_permissionId up = pid → permission_by_id pid w = Some p →
       PermissionService.deletePermission pid w
       = (Throws (Api (ApiErr.badRequest
                         "Cannot delete permission that is assigned to users. Remove assignments first.")),
          w)).
Proof.
  intros Hfk Hnd. split; [| split; [| split]].
  - intros uid ids by_ now res w' Hrun.
    apply assignPermissionsToUser_returns_list in Hrun as (u & _ & _ & Hlen & _ & ->).
    destruct (all_ids_found _ _ Hnd Hlen) as [_ Hall].
    intros up Hup.
    destruct (deleteCache_tables (permissions_key uid)
                (set_userPermissions
                   (foldl (upsert_userPermission uid by_ now) (userPermissions w) ids) w))
      as (_ & _ & Hps & Hups).
    rewrite Hups in Hup. rewrite Hps. simpl in *.
    apply foldl_upsert_refers in Hup as [Hup | (up0 & Hup & Heq)].
    + apply Hall. exact Hup.
    + rewrite <- Heq. apply Hfk. exact Hup.
  - intros uid ids res w' Hrun.
    apply revokePermissionsFromUser_returns in Hrun as ->.
    intros up Hup.
    destruct (deleteCache_tables (permissions_key uid)
                (set_userPermissions
                   (filter (fun up => revoked uid ids up = false) (userPermissions w)) w))
      as (_ & _ & Hps & Hups).
    rewrite Hups in Hup. rewrite Hps. simpl in *.
    apply list_elem_of_filter in Hup as [_ Hup]. apply Hfk. exact Hup.
  - intros pid w' Hrun.
    destruct (deletePermission_cases pid w)
      as [(_ & Hc) | [(_ & _ & Hc) | (_ & Hfree & Hc)]];
      rewrite Hc in Hrun; try discriminate Hrun.
    injection Hrun as <-. split.
    + intros up Hup. simpl in *.
      destruct (Hfk up Hup) as (p & Hp & Hid). exists p. split; [| exact Hid].
      apply list_elem_of_filter. split; [| exact Hp].
      rewrite Hid. apply Hfree. exact Hup.
    + unfold permission_by_id. simpl.
      destruct (find _ (filter _ (permissions w))) as [p |] eqn:Hfind; [| reflexivity].
      apply find_some in Hfind as [Hin Hid].
      apply list_elem_of_In, list_elem_of_filter in Hin as [Hne _].
      apply bool_decide_eq_true in Hid. contradiction.
  - intros pid up p Hup Hid Hp.
    destruct (deletePermission_cases pid w)
      as [(Hnone & _) | [(_ & _ & Hc) | (_ & Hfree & _)]].
    + congruence.
    + exact Hc.
    + exfalso. apply (Hfree up Hup Hid).
Qed.

Lemma assignments_keep_referring_to_catalog_witness :
  assignments_refer_to_catalog Sample.world_granted
  ∧ PermissionService.deletePermission "p1" Sample.world_granted
    = (Throws (Api (ApiErr.badRequest
                      "Cannot delete permission that is assigned to users. Remove assignments first.")),
       Sample.world_granted).
Proof.
  assert (Hfk : assignments_refer_to_catalog Sample.world_granted).
  { intros up Hup. simpl in Hup. apply list_elem_of_singleton in Hup. subst up.
    exists Sample.read_invoices. split; [simpl; constructor | reflexivity]. }
  assert (Hnd : NoDup (perm_id <$> permissions Sample.world_granted)).
  { simpl. repeat (apply NoDup_cons; split; [| ]);
      try apply NoDup_nil_2; intros Hin; not_listed Hin. }
  split; [exact Hfk |].
  destruct (assignments_keep_referring_to_catalog Sample.world_granted Hfk Hnd)
    as (_ & _ & _ & Hrefuse).
  apply (Hrefuse "p1" (mkUserPermission "u1" "p1" true 60 "u0") Sample.read_invoices);
    [simpl; constructor | reflexivity | reflexivity].
Defined.

Lemma omap_pointwise {A B} (f g : A → option B) (l : list A) :
  (∀ x, f x = g x) → omap f l = omap g l.
Proof.
  intros H. induction l as [| x l IH]; [reflexivity |].
  change (match f x with Some y => y :: omap f l | None => omap f l end
          = match g x with Some y => y :: omap g l | None => omap g l end).
  rewrite H, IH. reflexivity.
Qed.

(** X18. [updatePermission] changes the description and nothing else: the
    ids and triples of the catalog stay as they are, position by position,
    so the triples granted to any user, and with them every permission
    check answered from the store, are unchanged; an unknown id is answered
    with the 404 error and nothing is written. *)
Theorem updatePermission_changes_description_only
    (pid : string) (description : option string) (w : World) :
  (permission_by_id pid w = None →
   PermissionService.updatePermission pid description w
   = (Throws (Api (ApiErr.notFound "Permission not found")), w))
  ∧ (∀ p w', PermissionService.updatePermission pid description w = (Returns p, w') →
       perm_id p = pid
       ∧ (perm_id <$> permissions w') = (perm_id <$> permissions w)
       ∧ (tuple_of <$> permissions w') = (tuple_of <$> permissions w)
       ∧ users w' = users w ∧ userPermissions w' = userPermissions w ∧ redis w' = redis w
       ∧ (∀ uid, granted_tuples uid w' = granted_tuples uid w)
       ∧ (∀ d, description = Some d → permission_by_id pid w' = Some p ∧ perm_description p = d)).
Proof.
  unfold PermissionService.updatePermission. run. split.
  - intros ->. reflexivity.
  - intros p w'.
    destruct (permission_by_id pid w) as [p0 |] eqn:Hp0; [| discriminate].
    intros [= <- <-]. simpl.
    set (upd := fun p => mkPermission (perm_id p) (perm_module p) (perm_action p)
                           (perm_resource p) (default (perm_description p) description)).
    set (f := fun p => if bool_decide (perm_id p = pid) then upd p else p).
    assert (Hfid : ∀ q, perm_id (f q) = perm_id q)
      by (intros q; unfold f, upd; destruct (bool_decide _); reflexivity).
    assert (Hft : ∀ q, tuple_of (f q) = tuple_of q)
      by (intros q; unfold f, upd; destruct (bool_decide _); reflexivity).
    assert (Hfind : ∀ i, find (fun q => bool_decide (perm_id q = i)) (map f (permissions w))
                         = f <$> find (fun q => bool_decide (perm_id q = i)) (permissions w)).
    { intros i. induction (permissions w) as [| q l IH]; simpl; [reflexivity |].
      rewrite Hfid. destruct (bool_decide (perm_id q = i)); [reflexivity | exact IH]. }
    pose proof (find_some _ _ Hp0) as [_ Hid0]. apply bool_decide_eq_true in Hid0.
    split; [exact Hid0 |].
    split; [rewrite <- list_fmap_compose; apply list_fmap_ext; intros ? q _; apply Hfid |].
    split; [rewrite <- list_fmap_compose; apply list_fmap_ext; intros ? q _; apply Hft |].
    split; [reflexivity |]. split; [reflexivity |]. split; [reflexivity |].
    split.
    + intros uid. unfold granted_tuples, permission_by_id. simpl.
      apply omap_pointwise. intros up. rewrite Hfind.
      destruct (find _ (permissions w)) as [q |]; simpl; [| reflexivity].
      f_equal. apply Hft.
    + intros d ->. unfold permission_by_id in *. simpl. rewrite Hfind, Hp0. simpl.
      unfold f. rewrite (bool_decide_eq_true_2 _ Hid0). split; reflexivity.
Qed.

(** X19. The list the permission service shows for a user agrees with what
    the middleware checks: for an identity that is not a superadmin its
    triples are, in order, the triples the middleware reads from the
    assignment table, each marked granted and of source ["explicit"]; for a
    superadmin it is the whole catalog, each entry marked granted and of
    source ["role"].  The call writes nothing. *)
Theorem service_view_matches_store_read (uid : string) (w : World) (u : User) :
  user_by_id uid w = Some u →
  ∃ views,
    PermissionService.getUserPermissions uid w = (Returns views, w)
    ∧ (u_role u ≠ SUPERADMIN →
       (view_tuple <$> views) = granted_tuples uid w
       ∧ Forall (fun v => pv_granted v = true ∧ pv_source v = "explicit") views)
    ∧ (u_role u = SUPERADMIN →
       (pv_id <$> views) = (perm_id <$> permissions w)
       ∧ (view_tuple <$> views) = (tuple_of <$> permissions w)
       ∧ Forall (fun v => pv_granted v = true ∧ pv_source v = "role") views).
Proof.
  intros Hu. unfold PermissionService.getUserPermissions. run. rewrite Hu.
  destruct (decide (u_role u = SUPERADMIN)) as [Hrole | Hrole].
  - rewrite (bool_decide_eq_true_2 _ Hrole). eexists. split; [reflexivity |].
    split; [intros; contradiction |]. intros _.
    split; [| split].
    + induction (permissions w) as [| p l IH]; [reflexivity |].
      simpl. f_equal. exact IH.
    + induction (permissions w) as [| p l IH]; [reflexivity |].
      simpl. f_equal. exact IH.
    + apply Forall_forall. intros v Hv.
      apply list_elem_of_In, in_map_iff in Hv as (p & <- & _). auto.
  - rewrite (bool_decide_eq_false_2 _ Hrole). eexists. split; [reflexivity |].
    split; [| intros; contradiction]. intros _. split.
    + unfold granted_tuples. rewrite list_fmap_omap.
      apply omap_pointwise. intros up.
      destruct (permission_by_id (up_permissionId up) w); reflexivity.
    + apply Forall_forall. intros v Hv.
      apply list_elem_of_omap in Hv as (up & Hup & Hv).
      apply list_elem_of_filter in Hup as [[_ Hg] _].
      destruct (permission_by_id (up_permissionId up) w); [| discriminate].
      injection Hv as <-. simpl. auto.
Qed.

Lemma service_view_matches_store_read_witness :
  ∃ views,
    PermissionService.getUserPermissions "u1" Sample.world_granted
    = (Returns views, Sample.world_granted)
    ∧ (view_tuple <$> views) = granted_tuples "u1" Sample.world_granted.
Proof.
  destruct (service_view_matches_store_read "u1" Sample.world_granted Sample.alice eq_refl)
    as (views & Hrun & Hexplicit & _).
  exists views. split; [exact Hrun |]. apply Hexplicit. discriminate.
Defined.

(** ** Sessions: how the operations compose *)



(** Where an operation of the session manager can leave the stores. *)
Lemma login_world K tm email password now w o w' :
  login K tm email password now w = (o, w') →
  (∃ t, o = Throws t ∧ w' = w)
  ∨ (∃ r u, o = Returns r ∧ user_by_email (toLowerCase email) w = Some u
            ∧ w' = updated_users (u_id u) (with_login now (refreshToken (res_tokens r))) w).
Proof.
  destruct o as [r | t].
  - intros Hrun. right.
    apply login_returns in Hrun as (u & co & Hu & _ & _ & _ & _ & _ & _ & ->). eauto.
  - intros Hrun. left. exists t. split; [reflexivity |]. revert Hrun.
    unfold login. run.
    destruct (user_by_email (toLowerCase email) w) as [u |]; simpl; [| by intros [= _ <-]].
    destruct (comparePassword password (u_password u)); simpl; [| by intros [= _ <-]].
    destruct (bool_decide (u_status u = INACTIVE)); simpl; [by intros [= _ <-] |].
    destruct (bool_decide (u_status u = SUSPENDED)); simpl; [by intros [= _ <-] |].
    destruct (company_by_id (u_companyId u) w) as [co |]; [| by intros [= _ <-]].
    destruct (isActive co); simpl; [| by intros [= _ <-]].
    unfold tokens_for, lift.
    destruct (generateTokens _ _ _ _ _ _ _ _); [| by intros [= _ <-]].
    unfold prisma_user_update. destruct (existsb _ (users w)); [discriminate |].
    by intros [= _ <-].
Qed.

Lemma refreshAccessToken_world K tm T now w o w' :
  refreshAccessToken K tm T now w = (o, w') →
  (∃ t, o = Throws t ∧ w' = w)
  ∨ (∃ toks u, o = Returns toks
               ∧ w' = updated_users (u_id u) (with_refreshToken (Some (refreshToken toks))) w).
Proof.
  destruct o as [toks | t].
  - intros Hrun. right.
    apply refreshAccessToken_returns in Hrun as (c & u & co & _ & _ & _ & _ & _ & _ & _ & _ & ->).
    eauto.
  - intros Hrun. left. exists t. split; [reflexivity |]. revert Hrun.
    unfold refreshAccessToken.
    destruct (token_truthy T); simpl; [| by intros [= _ <-]].
    run. destruct (verifyRefreshToken K tm now T) as [d |]; simpl; [| by intros [= _ <-]].
    destruct (user_by_id (p_id (payload d)) w) as [u |]; simpl; [| by intros [= _ <-]].
    destruct (bool_decide (u_refreshToken u = Some T)); simpl; [| by intros [= _ <-]].
    destruct (bool_decide (u_status u = ACTIVE)); simpl; [| by intros [= _ <-]].
    destruct (company_by_id (u_companyId u) w) as [co |]; [| by intros [= _ <-]].
    destruct (isActive co); simpl; [| by intros [= _ <-]].
    unfold tokens_for, lift.
    destruct (generateTokens _ _ _ _ _ _ _ _); [| by intros [= _ <-]].
    unfold prisma_user_update. destruct (existsb _ (users w)); [discriminate |].
    by intros [= _ <-].
Qed.

Lemma changePassword_world uid current new now salt w o w' :
  changePassword uid current new now salt w = (o, w') →
  (∃ t, o = Throws t ∧ w' = w)
  ∨ (o = Returns tt ∧ w' = updated_users uid (with_password now (hashPassword salt new)) w).
Proof.
  unfold changePassword. run.
  destruct (user_by_id uid w) as [u |] eqn:Hu; [| intros [= <- <-]; left; eauto].
  destruct (comparePassword current (u_password u)); simpl;
    [| intros [= <- <-]; left; eauto].
  rewrite (prisma_user_update_found _ _ _ _ Hu). intros [= <- <-]. right. auto.
Qed.

Lemma logout_world uid w o w' :
  logout uid w = (o, w') →
  (∃ t, o = Throws t ∧ w' = w)
  ∨ (o = Returns tt
     ∧ w' = snd (deleteCache (permissions_key uid)
                   (updated_users uid (with_refreshToken None) w))).
Proof.
  unfold logout. run. unfold prisma_user_update.
  destruct (existsb _ (users w)); intros [= <- <-]; [right | left]; eauto.
Qed.

Lemma identities_updated i data w :
  (∀ u, identity_of (data u) = identity_of u) →
  (identity_of <$> users (updated_users i data w)) = (identity_of <$> users w).
Proof.
  intros Hid. unfold updated_users. simpl.
  induction (users w) as [| x l IH]; [reflexivity |].
  simpl. f_equal; [| exact IH].
  destruct (bool_decide (u_id x = i)); [apply Hid | reflexivity].
Qed.

(** X20. Login, refresh, logout and change of password never touch who an
    identity is: whatever their outcome, the user table afterwards has the
    same rows in the same order with the same id, email, role, status and
    company, and the companies, the catalog and the assignments are as
    before. *)
Theorem session_operations_keep_identities (K : Constants) (tm : TokensModule) (w : World) :
  let kept w' :=
    (identity_of <$> users w') = (identity_of <$> users w)
    ∧ companies w' = companies w ∧ permissions w' = permissions w
    ∧ userPermissions w' = userPermissions w in
  (∀ email password now, kept (snd (login K tm email password now w)))
  ∧ (∀ T now, kept (snd (refreshAccessToken K tm T now w)))
  ∧ (∀ uid, kept (snd (logout uid w)))
  ∧ (∀ uid current new now salt, kept (snd (changePassword uid current new now salt w))).
Proof.
  intros kept.
  assert (Hsame : kept w) by (unfold kept; auto).
  assert (Hupd : ∀ i data, (∀ u, identity_of (data u) = identity_of u) →
                           kept (updated_users i data w)).
  { intros i data Hid. unfold kept. split; [apply identities_updated; exact Hid | auto]. }
  split; [| split; [| split]].
  - intros email password now.
    destruct (login K tm email password now w) as [o w'] eqn:Hrun.
    apply login_world in Hrun as [(t & _ & ->) | (r & u & _ & _ & ->)]; simpl; auto.
  - intros T now.
    destruct (refreshAccessToken K tm T now w) as [o w'] eqn:Hrun.
    apply refreshAccessToken_world in Hrun as [(t & _ & ->) | (toks & u & _ & ->)]; simpl; auto.
  - intros uid.
    destruct (logout uid w) as [o w'] eqn:Hrun.
    apply logout_world in Hrun as [(t & _ & ->) | (_ & ->)]; simpl; auto.
    destruct (deleteCache_tables (permissions_key uid)
                (updated_users uid (with_refreshToken None) w)) as (Hus & Hcs & Hps & Hups).
    unfold kept. rewrite Hus, Hcs, Hps, Hups. apply Hupd. reflexivity.
  - intros uid current new now salt.
    destruct (changePassword uid current new now salt w) as [o w'] eqn:Hrun.
    apply changePassword_world in Hrun as [(t & _ & ->) | (_ & ->)]; simpl; auto.
Qed.

(** X21. Login, refresh, change of password and logout are all or nothing:
    when one of them throws, the stores are exactly as before the call. *)
Theorem failed_session_operations_write_nothing
    (K : Constants) (tm : TokensModule) (w w' : World) (t : Thrown) :
  (∀ email password now, login K tm email password now w = (Throws t, w') → w' = w)
  ∧ (∀ T now, refreshAccessToken K tm T now w = (Throws t, w') → w' = w)
  ∧ (∀ uid current new now salt,
       changePassword uid current new now salt w = (Throws t, w') → w' = w)
  ∧ (∀ uid, logout uid w = (Throws t, w') → w' = w ∧ user_by_id uid w = None).
Proof.
  split; [| split; [| split]].
  - intros email password now Hrun.
    apply login_world in Hrun as [(t' & _ & ->) | (r & u & [=] & _)]. reflexivity.
  - intros T now Hrun.
    apply refreshAccessToken_world in Hrun as [(t' & _ & ->) | (toks & u & [=] & _)].
    reflexivity.
  - intros uid current new now salt Hrun.
    apply changePassword_world in Hrun as [(t' & _ & ->) | ([=] & _)]. reflexivity.
  - intros uid Hrun.
    destruct (user_by_id uid w) as [u |] eqn:Hu.
    + rewrite (logout_runs _ _ _ Hu) in Hrun. discriminate Hrun.
    + split; [| reflexivity].
      apply logout_world in Hrun as [(t' & _ & ->) | ([=] & _)]. reflexivity.
Qed.

(** X22. A successful login opens a session: the stored refresh token of
    the identity is the returned one, its last login is the instant of the
    call, the returned access token verifies until it expires with the id,
    email, role, company and status of the identity, and (the row found by
    email being the row of its id) a request bearing that access token
    passes [authenticate] until then. *)
Theorem login_opens_a_session
    (K : Constants) (tm : TokensModule) (email password : string) (now : Z)
    (w w1 : World) (r : AuthResult) :
  login K tm email password now w = (Returns r, w1) →
  ∃ u,
    user_by_email (toLowerCase email) w = Some u
    ∧ stored_token (u_id u) w1 = Some (Some (refreshToken (res_tokens r)))
    ∧ (u_lastLoginAt <$> user_by_id (u_id u) w1) = Some (Some now)
    ∧ (∀ now', now' < now + ACCESS_TOKEN_EXPIRY K →
         verifyAccessToken K tm now' (accessToken (res_tokens r))
         = Returns (mkClaims
                      (mkPayload (u_id u) (u_email u) (Some (u_role u)) (Some (u_companyId u))
                         (Some ACTIVE))
                      now (now + ACCESS_TOKEN_EXPIRY K) (ISSUER K) (AUDIENCE K)))
    ∧ (user_by_id (u_id u) w = Some u →
       ∀ req now', now' < now + ACCESS_TOKEN_EXPIRY K →
         extract_token (authorization req) = Some (accessToken (res_tokens r)) →
         ∃ req', authenticate K tm req now' w1 = (Returns req', w1)
                 ∧ (ru_id <$> req_user req') = Some (u_id u)
                 ∧ (ru_role <$> req_user req') = Some (u_role u)).
Proof.
  intros Hrun.
  apply login_returns in Hrun as (u & co & Hu & _ & Hact & Hco & Hco' & _ & Hgen & ->).
  exists u. split; [exact Hu |].
  assert (Hin : In u (users w)) by (apply find_some in Hu as [Hu _]; exact Hu).
  assert (Hex : ∃ v, user_by_id (u_id u) w = Some v).
  { destruct (user_by_id (u_id u) w) as [v |] eqn:Hv; [eauto |].
    unfold user_by_id in Hv. eapply find_none in Hv; [| exact Hin].
    rewrite bool_decide_eq_true_2 in Hv by reflexivity. discriminate. }
  destruct Hex as [v Hv].
  pose proof (user_by_id_id _ _ _ Hv) as Hvid.
  assert (Hv1 : user_by_id (u_id u)
                  (updated_users (u_id u) (with_login now (refreshToken (res_tokens r))) w)
                = Some (with_login now (refreshToken (res_tokens r)) v)).
  { rewrite user_by_id_updated by apply with_login_id. rewrite Hv. simpl.
    rewrite (bool_decide_eq_true_2 _ Hvid). reflexivity. }
  unfold generateTokens in Hgen.
  destruct (generateAccessToken _ _ _ _) as [a |] eqn:Ha; [| discriminate].
  destruct (generateRefreshToken _ _ _ _) as [rt |] eqn:Hr; [| discriminate].
  injection Hgen as Hgen.
  apply generateAccessToken_returns in Ha as [Hsa ->].
  assert (Hverify : ∀ now', now' < now + ACCESS_TOKEN_EXPIRY K →
            verifyAccessToken K tm now' (accessToken (res_tokens r))
            = Returns (mkClaims
                         (mkPayload (u_id u) (u_email u) (Some (u_role u))
                            (Some (u_companyId u)) (Some ACTIVE))
                         now (now + ACCESS_TOKEN_EXPIRY K) (ISSUER K) (AUDIENCE K))).
  { intros now' Hlt. rewrite <- Hgen. simpl. unfold verifyAccessToken.
    rewrite Hact. rewrite jwt_verify_accepts by (simpl; auto). reflexivity. }
  split; [unfold stored_token; rewrite Hv1; reflexivity |].
  split; [rewrite Hv1; reflexivity |].
  split; [exact Hverify |].
  intros Hrow req now' Hlt Hext.
  rewrite Hrow in Hv. injection Hv as <-.
  eexists. unfold authenticate. rewrite Hext.
  replace (token_truthy (accessToken (res_tokens r))) with true
    by (rewrite <- Hgen; reflexivity).
  run. rewrite (Hverify now' Hlt). simpl. rewrite Hv1. simpl.
  rewrite Hact. simpl. unfold company_by_id in *. simpl. rewrite Hco, Hco'. simpl.
  split; [reflexivity |]. split; reflexivity.
Qed.

Lemma login_opens_a_session_witness :
  ∃ r w1,
    login Sample.constants Sample.tm_shared "Alice@Acme.test" "Secret@123" 160 Sample.world
    = (Returns r, w1)
    ∧ stored_token "u1" w1 = Some (Some (refreshToken (res_tokens r))).
Proof.
  destruct (login Sample.constants Sample.tm_shared "Alice@Acme.test" "Secret@123" 160
              Sample.world) as [[r | t] w1] eqn:Hrun;
    [| vm_compute in Hrun; discriminate Hrun].
  exists r, w1. split; [reflexivity |].
  destruct (login_opens_a_session _ _ _ _ _ _ _ _ Hrun) as (u & Hu & Hst & _).
  vm_compute in Hu. injection Hu as <-. exact Hst.
Defined.






(** X25. The reconnection delay of the Redis client: from the first retry
    on it lies between 50 and 2000 ms, never decreases, grows by 50 ms per
    retry up to the 40th and stays at 2000 ms afterwards. *)
Theorem retryStrategy_bounds (times times' : Z) :
  1 <= times → times <= times' →
  50 <= retryStrategy times <= 2000
  ∧ retryStrategy times <= retryStrategy times'
  ∧ (times <= 40 → retryStrategy times = times * 50)
  ∧ (40 <= times → retryStrategy times = 2000).
Proof.
  unfold retryStrategy. intros H1 Hle. split_and!; lia.
Qed.

Lemma retryStrategy_bounds_witness :
  50 <= retryStrategy 3 <= 2000 ∧ retryStrategy 3 <= retryStrategy 41.
Proof.
  destruct (retryStrategy_bounds 3 41) as (Hb & Hm & _); [lia | lia |].
  split; [exact Hb | exact Hm].
Defined.



(** X27. What the error handler sends.  The body always has
    [success: false]; the stack trace is included exactly under
    [NODE_ENV = development]; an [ApiError] is passed on with its own
    status, code, message and errors; an error that is neither an
    [ApiError], a Prisma error, a JWT error nor a validation error is
    answered with 500, and under [NODE_ENV = production] its message is
    replaced by a fixed text; a known Prisma request error is answered with
    409 exactly for code P2002 and never with its own message, except for
    the name of the first target field. *)
Theorem errorHandler_response (NODE_ENV : option string) (err : RaisedError) :
  er_success (errorHandler NODE_ENV err) = false
  ∧ (er_stack (errorHandler NODE_ENV err) = true ↔ NODE_ENV = Some "development")
  ∧ (∀ a errors, err = RaisedApiError a errors →
       er_statusCode (errorHandler NODE_ENV err) = statusCode a
       ∧ er_errorCode (errorHandler NODE_ENV err) = Code (errorCode a)
       ∧ er_message (errorHandler NODE_ENV err) = message a
       ∧ er_errors (errorHandler NODE_ENV err) = errors)
  ∧ (∀ name_ message_ details, err = OtherError name_ message_ details →
       name_ ∉ ["TokenExpiredError"; "JsonWebTokenError"; "ValidationError"] →
       er_statusCode (errorHandler NODE_ENV err) = INTERNAL_SERVER_ERROR
       ∧ er_errors (errorHandler NODE_ENV err) = None
       ∧ (NODE_ENV = Some "production" →
          er_message (errorHandler NODE_ENV err) = "Internal Server Error")
       ∧ (NODE_ENV ≠ Some "production" →
          er_message (errorHandler NODE_ENV err) = message_))
  ∧ (∀ code target, err = PrismaClientKnownRequestError code target →
       (er_statusCode (errorHandler NODE_ENV err) = CONFLICT ↔ code = "P2002")
       ∧ (code = "P2002" →
          ∃ field, er_message (errorHandler NODE_ENV err)
                   = "A record with this " +:+ field +:+ " already exists"
                   ∧ field ≠ ""
                   ∧ (field = "field" ∨ target ≫= head = Some field))
       ∧ (code ≠ "P2002" →
          er_message (errorHandler NODE_ENV err)
          ∈ ["The requested record was not found";
             "Invalid reference to related record";
             "The record to delete does not exist";
             "Database connection failed";
             "Database operation failed"])).
Proof.
  split_and!.
  - reflexivity.
  - unfold errorHandler. simpl. apply bool_decide_eq_true.
  - intros a errors ->. auto.
  - intros name_ message_ details -> Hname.
    unfold errorHandler, convertToApiError. simpl.
    rewrite !(bool_decide_eq_false_2 (name_ = _)).
    + simpl. split_and!; auto.
      * intros ->. reflexivity.
      * intros Hne. rewrite bool_decide_eq_false_2 by exact Hne. reflexivity.
    + intros ->. apply Hname. repeat constructor.
    + intros ->. apply Hname. repeat constructor.
    + intros ->. apply Hname. repeat constructor.
  - intros code target ->. unfold errorHandler, convertToApiError, handlePrismaError.
    destruct (decide (code = "P2002")) as [-> | H02].
    + simpl. split_and!; [split; auto | | congruence].
      intros _. destruct target as [[| f fs] |]; simpl.
      * exists "field". split_and!; [reflexivity | discriminate | auto].
      * destruct f as [| c f']; simpl.
        -- exists "field". split_and!; [reflexivity | discriminate | auto].
        -- exists (String c f'). split_and!; [reflexivity | discriminate | auto].
      * exists "field". split_and!; [reflexivity | discriminate | auto].
    + rewrite (bool_decide_eq_false_2 (code = "P2002")) by exact H02.
      repeat case_bool_decide; simpl;
        (split_and!; [split; [discriminate | intros; contradiction]
                     | intros; contradiction
                     | intros _; repeat constructor]).
Qed.

(** X28. [logout] for an id without a row: the update is rejected by Prisma
    (P2025), nothing is written, no cache command is sent, and the error
    handler answers 404 with the fixed not-found message whatever target
    Prisma names and whatever the environment. *)
Theorem logout_of_unknown_id
    (NODE_ENV : option string) (target : option (list string)) (uid : string) (w : World) :
  user_by_id uid w = None →
  ∃ t, logout uid w = (Throws t, w)
       ∧ er_statusCode (errorHandler NODE_ENV (raised target t)) = NOT_FOUND
       ∧ er_errorCode (errorHandler NODE_ENV (raised target t)) = Code DB_RECORD_NOT_FOUND
       ∧ er_message (errorHandler NODE_ENV (raised target t))
         = "The requested record was not found".
Proof.
  intros Hnone. exists (PrismaError "P2025").
  assert (Hex : existsb (fun u => bool_decide (u_id u = uid)) (users w) = false).
  { unfold user_by_id in Hnone.
    induction (users w) as [| u us IH]; [reflexivity |].
    simpl in *. destruct (bool_decide (u_id u = uid)); [discriminate | auto]. }
  unfold logout, prisma_user_update. run. rewrite Hex.
  split_and!; reflexivity.
Qed.

Lemma logout_of_unknown_id_witness :
  ∃ t, logout "nobody" Sample.world = (Throws t, Sample.world)
       ∧ er_statusCode (errorHandler (Some "production") (raised (Some ["id"]) t)) = NOT_FOUND
       ∧ er_errorCode (errorHandler (Some "production") (raised (Some ["id"]) t))
         = Code DB_RECORD_NOT_FOUND
       ∧ er_message (errorHandler (Some "production") (raised (Some ["id"]) t))
         = "The requested record was not found".
Proof.
  apply (logout_of_unknown_id (Some "production") (Some ["id"]) "nobody" Sample.world).
  reflexivity.
Defined.
